(** * chess-mcp: the session router, its leaves and the game store

    A shallow embedding of the TypeScript sources

      - [lib/mcp/uuid.ts]    ([validUUID]),
      - [lib/mcp/header.ts]  ([header]),
      - [lib/mcp/index.ts]   ([McpServerMiddleware]: [newTransport], [post],
                             [getDelete] and the two callbacks it installs),
      - [lib/store.ts]       ([saveGame], [loadGame]),

    followed by the properties the specification states about them.

    Conventions of the embedding.

      - A JavaScript [string] is a Rocq [string]: a sequence of code units
        below 256.  Node decodes header values as Latin-1, and UUIDs, FEN
        text and the file names built from them are ASCII.
      - [string | undefined] is [option string]; JavaScript truthiness of
        such a value is [truthy]: [undefined] and the empty string are falsy.
      - A plain object used as a dictionary is a [gmap string _] of its own
        properties.  A read [object[name]] also finds the members every
        plain object inherits from [Object.prototype] ([inherited]): the
        registry lookup of the middleware models them; the header lookup
        represents own properties only, and what is stated of it on a name
        excludes the inherited ones.
      - [post] and [getDelete] run up to the point where they answer or
        hand the request to a transport: the reply and the state at that
        point.  What the awaited [handleRequest] then does to the registry
        it does through the callbacks [newTransport] installed, which are
        steps of their own.
      - The disk of the store is flat: a file is named by the text of its
        path, and a write succeeds.  This is exact for the paths of session
        ids that are plain file names ([plain_name]) on a disk the store
        can write to ([usable_disk]); what is stated of a save and a later
        load under an id is stated of those.
      - Transports are mutable objects shared between the registry and the
        closures installed on them: they live in a heap and are named by
        their location.
      - Closures are defunctionalised: a constructor per closure body of the
        source, carrying the variable it captures, and a [call_] function
        that runs the body.
      - A call that may throw returns a [result]. *)

From Stdlib Require Import String Ascii List Bool Arith Lia.
From stdpp Require Import base option list gmap strings.

Local Open Scope stdpp_scope.

(** ** JavaScript basics *)

Module Js.

(** Errors a modelled call can throw. *)
Inductive Error : Type :=
| TypeError      (* property access on [undefined] *)
| SyntaxError    (* [JSON.parse] on malformed text *)
| ENOENT         (* [readFile] on a missing file *)
| EngineError    (* thrown by the chess engine *)
| Unmodelled.    (* the call leaves the values this embedding represents *)

Inductive result (A : Type) : Type :=
| Ok (a : A)
| Throw (e : Error).
Arguments Ok {A} a.
Arguments Throw {A} e.

Definition bind {A B : Type} (r : result A) (k : A -> result B) : result B :=
  match r with
  | Ok a => k a
  | Throw e => Throw e
  end.

(** Truthiness of a [string | undefined]. *)
Definition truthy (v : option string) : bool :=
  match v with
  | None => false
  | Some s => negb (String.eqb s "")
  end.

(** [ToString] of a [string | undefined], as a template literal applies it. *)
Definition to_string (v : option string) : string :=
  match v with
  | None => "undefined"
  | Some s => s
  end.

(** [s.slice(start, end)] for non-negative indices. *)
Definition slice (s : string) (start end_ : nat) : string :=
  let len := String.length s in
  let from := Nat.min start len in
  let to := Nat.min end_ len in
  String.substring from (to - from) s.

(** The names of the members a plain object inherits from
    [Object.prototype]: each is a function, or for [__proto__] the
    prototype itself, so truthy and without a [handleRequest] method. *)
Definition object_prototype_members : list string :=
  ["constructor"; "hasOwnProperty"; "isPrototypeOf"; "propertyIsEnumerable";
   "toLocaleString"; "toString"; "valueOf"; "__proto__";
   "__defineGetter__"; "__defineSetter__"; "__lookupGetter__"; "__lookupSetter__"].

Definition inherited (name : string) : bool :=
  existsb (String.eqb name) object_prototype_members.

(** The first [n] characters of a string (all of it when it is shorter). *)
Fixpoint first_chars (n : nat) (s : string) : string :=
  match n, s with
  | S n', String c s' => String c (first_chars n' s')
  | _, _ => ""
  end.

End Js.
Export Js.

#[export] Instance result_bind : MBind Js.result := fun A B k r => Js.bind r k.
#[export] Instance result_ret : MRet Js.result := @Js.Ok.

(** ** [lib/mcp/uuid.ts] *)

Module Uuid.

(** The fragment of regular expressions the source's pattern uses:
    a literal character, a class given by ranges, a counted repetition
    [r{n}] and concatenation. *)
Inductive regex : Type :=
| Chr (c : ascii)
| Cls (ranges : list (ascii * ascii))
| Rep (r : regex) (n : nat)
| Cat (r1 r2 : regex).

(** [Canonicalize] of the ECMAScript pattern semantics (no [u] flag): with
    [ignoreCase] a character is compared through its upper-case form.  A
    code unit of 128 or more never canonicalises to an ASCII one, so on
    those the identity gives the same comparisons against ASCII. *)
Definition to_upper (c : ascii) : ascii :=
  let n := nat_of_ascii c in
  if (97 <=? n) && (n <=? 122) then ascii_of_nat (n - 32) else c.

Definition canonicalize (ignoreCase : bool) (c : ascii) : ascii :=
  if ignoreCase then to_upper c else c.

(** The members of a class: every code unit of every range. *)
Definition range_members (r : ascii * ascii) : list ascii :=
  let lo := nat_of_ascii (fst r) in
  let hi := nat_of_ascii (snd r) in
  map ascii_of_nat (seq lo (S hi - lo)).

Definition class_members (ranges : list (ascii * ascii)) : list ascii :=
  flat_map range_members ranges.

(** A character matches a set when some member has the same canonical form. *)
Definition char_set_matches (ignoreCase : bool) (members : list ascii) (ch : ascii) : bool :=
  existsb (fun a => Ascii.eqb (canonicalize ignoreCase a) (canonicalize ignoreCase ch)) members.

(** [matches ic r s]: every remainder of [s] left by a match of [r] at its start. *)
Fixpoint matches (ic : bool) (r : regex) (s : list ascii) : list (list ascii) :=
  match r with
  | Chr c =>
      match s with
      | ch :: s' => if char_set_matches ic [c] ch then [s'] else []
      | [] => []
      end
  | Cls ranges =>
      match s with
      | ch :: s' => if char_set_matches ic (class_members ranges) ch then [s'] else []
      | [] => []
      end
  | Rep r n => Nat.iter n (fun rests => flat_map (matches ic r) rests) [s]
  | Cat r1 r2 => flat_map (matches ic r2) (matches ic r1 s)
  end.

(** [/^r$/.test(s)]: a match of [r] at index 0 that ends at the end of input
    (no [m] flag: [$] is the end of the string only). *)
Definition test_anchored (ic : bool) (r : regex) (s : string) : bool :=
  existsb (fun rest => match rest with [] => true | _ => false end)
          (matches ic r (list_ascii_of_string s)).

(** [[0-9a-f]] *)
Definition hex_class : regex := Cls [("0"%char, "9"%char); ("a"%char, "f"%char)].

(** [[0-9a-f]{8}-[0-9a-f]{4}-[0-9a-f]{4}-[0-9a-f]{4}-[0-9a-f]{12}] *)
Definition uuid_pattern : regex :=
  Cat (Rep hex_class 8) (Cat (Chr "-"%char)
  (Cat (Rep hex_class 4) (Cat (Chr "-"%char)
  (Cat (Rep hex_class 4) (Cat (Chr "-"%char)
  (Cat (Rep hex_class 4) (Cat (Chr "-"%char)
  (Rep hex_class 12)))))))).

(** [validUUID(id?: string): boolean] *)
Definition validUUID (id : option string) : bool :=
  if negb (truthy id) then false
  else test_anchored true uuid_pattern (to_string id).

(** The specification's wording of the same predicate: five groups of
    hexadecimal digits of lengths 8, 4, 4, 4 and 12, joined by hyphens. *)
Definition is_hex_digit (c : ascii) : bool :=
  let n := nat_of_ascii c in
  ((48 <=? n) && (n <=? 57)) || ((97 <=? n) && (n <=? 102)) || ((65 <=? n) && (n <=? 70)).

Definition hyphen : ascii := "-"%char.

Definition hex_group (len : nat) (g : list ascii) : Prop :=
  length g = len /\ forallb is_hex_digit g = true.

Definition uuid_shape (s : string) : Prop :=
  exists g1 g2 g3 g4 g5 : list ascii,
    list_ascii_of_string s = g1 ++ hyphen :: g2 ++ hyphen :: g3 ++ hyphen :: g4 ++ hyphen :: g5 /\
    hex_group 8 g1 /\ hex_group 4 g2 /\ hex_group 4 g3 /\ hex_group 4 g4 /\ hex_group 12 g5.

(** Reading the pattern deterministically: strip [n] hexadecimal digits,
    or one hyphen, from the front of the input. *)
Fixpoint strip_hex (n : nat) (s : list ascii) : option (list ascii) :=
  match n with
  | 0 => Some s
  | S n' =>
      match s with
      | c :: s' => if is_hex_digit c then strip_hex n' s' else None
      | [] => None
      end
  end.

Definition strip_hyphen (s : list ascii) : option (list ascii) :=
  match s with
  | c :: s' => if Ascii.eqb c hyphen then Some s' else None
  | [] => None
  end.

Definition strip_uuid (s : list ascii) : option (list ascii) :=
  s ← strip_hex 8 s; s ← strip_hyphen s;
  s ← strip_hex 4 s; s ← strip_hyphen s;
  s ← strip_hex 4 s; s ← strip_hyphen s;
  s ← strip_hex 4 s; s ← strip_hyphen s;
  strip_hex 12 s.

End Uuid.

(** ** [lib/mcp/header.ts] *)

Module Header.

(** A stored header value: [string | string[] | undefined]. *)
Inductive Value : Type :=
| VUndefined
| VString (s : string)
| VArray (l : list string).

(** [headers[name]]: throws on [undefined], and reads a missing property as
    [undefined].  Own properties only: on a name among the [inherited] ones
    the source reads the inherited member instead. *)
Definition get_property (headers : option (gmap string Value)) (name : string) : result Value :=
  match headers with
  | None => Throw TypeError
  | Some h => Ok (default VUndefined (h !! name))
  end.

(** [header(headers, name): string | undefined] *)
Definition header (headers : option (gmap string Value)) (name : string) : result (option string) :=
  if negb (bool_decide (is_Some headers)) then Ok None
  else
    value ← get_property headers name;
    match value with
    | VArray l => Ok (l !! 0)
    | VString s => Ok (Some s)
    | VUndefined => Ok None
    end.

End Header.

(** ** [lib/mcp/index.ts] *)

Module Mcp.
Import Header Uuid.

(** A transport is named by its location in the heap. *)
Definition loc : Type := nat.

(** [onsessioninitialized: (sessionId) => { this.transports[sessionId] = transport; }],
    with the [transport] it captures. *)
Inductive SessionInitializedCallback : Type :=
| RegisterTransport (transport : loc).

(** [() => { if (transport.sessionId) { delete this.transports[transport.sessionId]; } }],
    with the [transport] it captures. *)
Inductive CloseCallback : Type :=
| DeleteOwnEntry (transport : loc).

(** [sessionIdGenerator: () => randomUUID()] *)
Inductive Generator : Type :=
| RandomUUID.

(** The fields of a [StreamableHTTPServerTransport] the middleware reads or
    writes, and whether a server was connected to it. *)
Record Transport : Type := mkTransport {
  sessionId : option string;
  sessionIdGenerator : option Generator;
  onsessioninitialized : option SessionInitializedCallback;
  onclose : option CloseCallback;
  connected : bool
}.

(** The state of a [McpServerMiddleware]: the registry [this.transports] and
    the transports allocated so far. *)
Record Middleware : Type := mkMiddleware {
  transports : gmap string loc;
  heap : list Transport
}.

(** The state a constructor leaves: [transports = {}]. *)
Definition initial : Middleware := mkMiddleware ∅ [].

(** What the request body is to the SDK's [isInitializeRequest]; the rest of
    the message is opaque to the router. *)
Record Body : Type := mkBody {
  isInitializeRequest : bool;
  payload : string
}.

Record Request : Type := mkRequest {
  headers : gmap string Header.Value;
  body : Body
}.

(** JSON values, for [res.json]. *)
#[warnings="-register-all"]
Inductive Json : Type :=
| JNull
| JNumber (n : Z)
| JString (s : string)
| JObject (fields : list (string * Json)).

(** What a handler does with the response:
    [transport.handleRequest(req, res, parsedBody)],
    [res.status(status).json(value)] or [res.status(status).send(text)]. *)
Inductive Reply : Type :=
| HandleRequest (transport : loc) (parsedBody : option Body)
| StatusJson (status : nat) (value : Json)
| StatusSend (status : nat) (text : string).

(** [new StreamableHTTPServerTransport(options)] *)
Definition new_transport (generator : option Generator)
    (callback : option SessionInitializedCallback) : Transport :=
  mkTransport None generator callback None false.

Definition set_sessionId (v : option string) (t : Transport) : Transport :=
  mkTransport v (sessionIdGenerator t) (onsessioninitialized t) (onclose t) (connected t).

Definition set_onclose (cb : CloseCallback) (t : Transport) : Transport :=
  mkTransport (sessionId t) (sessionIdGenerator t) (onsessioninitialized t) (Some cb) (connected t).

(** [await server.connect(transport)], for the server [this.newServer] made. *)
Definition connect (t : Transport) : Transport :=
  mkTransport (sessionId t) (sessionIdGenerator t) (onsessioninitialized t) (onclose t) true.

Definition alloc (t : Transport) (m : Middleware) : loc * Middleware :=
  (length (heap m), mkMiddleware (transports m) (heap m ++ [t])).

Definition update (l : loc) (f : Transport -> Transport) (m : Middleware) : Middleware :=
  mkMiddleware (transports m) (alter f l (heap m)).

Definition registry_put (id : string) (l : loc) (m : Middleware) : Middleware :=
  mkMiddleware (<[id := l]> (transports m)) (heap m).

Definition registry_delete (id : string) (m : Middleware) : Middleware :=
  mkMiddleware (delete id (transports m)) (heap m).

(** Running the on-session-initialized callback with the id it is given. *)
Definition call_onsessioninitialized (cb : SessionInitializedCallback) (sessionId : string)
    (m : Middleware) : Middleware :=
  match cb with
  | RegisterTransport transport => registry_put sessionId transport m
  end.

(** Running the close callback. *)
Definition call_onclose (cb : CloseCallback) (m : Middleware) : Middleware :=
  match cb with
  | DeleteOwnEntry transport =>
      match heap m !! transport with
      | Some t =>
          if truthy (sessionId t) then registry_delete (to_string (sessionId t)) m else m
      | None => m
      end
  end.

(** [newTransport(sessionId, req, res)] *)
Definition newTransport (sessionId : option string) (m : Middleware) : loc * Middleware :=
  let '(transport, m) :=
    if truthy sessionId then
      let '(transport, m) := alloc (new_transport None None) m in
      let m := update transport (set_sessionId sessionId) m in
      let m := registry_put (to_string sessionId) transport m in
      let m := update transport (set_onclose (DeleteOwnEntry transport)) m in
      (transport, m)
    else
      (* the callback captures the variable the new transport is assigned to *)
      let transport := length (heap m) in
      alloc (new_transport (Some RandomUUID) (Some (RegisterTransport transport))) m
  in
  let m := update transport (set_onclose (DeleteOwnEntry transport)) m in
  let m := update transport connect m in
  (transport, m).

(** The transport [newTransport] leaves in the heap, in each of its modes. *)
Definition explicit_transport (sessionId : string) (l : loc) : Transport :=
  mkTransport (Some sessionId) None None (Some (DeleteOwnEntry l)) true.

Definition generated_transport (l : loc) : Transport :=
  mkTransport None (Some RandomUUID) (Some (RegisterTransport l)) (Some (DeleteOwnEntry l)) true.

(** Sample data: a well-formed id, and a request carrying a scalar session
    header (or none) and a body. *)
Definition sample_id : string := "123e4567-e89b-12d3-a456-426614174000".

Definition request_with (sessionId : option string) (initialize : bool) : Request :=
  mkRequest
    (match sessionId with
     | Some s => {[ "mcp-session-id" := Header.VString s ]}
     | None => ∅
     end)
    (mkBody initialize "{}").

Definition no_valid_session : Json :=
  JObject [("jsonrpc", JString "2.0");
           ("error", JObject [("code", JNumber (-32000));
                              ("message", JString "Bad Request: No valid session ID provided")]);
           ("id", JNull)].

(** What [this.transports[id]] finds: the transport registered under the
    id, or else a member inherited from [Object.prototype]. *)
Inductive Member : Type :=
| OwnTransport (transport : loc)
| InheritedMember.

Definition registry_get (m : Middleware) (id : string) : option Member :=
  match transports m !! id with
  | Some transport => Some (OwnTransport transport)
  | None => if inherited id then Some InheritedMember else None
  end.

(** [post(req, res)], registered for POST and for GET, up to its answer or
    to the call of [transport.handleRequest]; that call throws a
    [TypeError] on an inherited member, which has no such method. *)
Definition post (req : Request) (m : Middleware) : result (Reply * Middleware) :=
  sessionId ← header (Some (headers req)) "mcp-session-id";
  match (if truthy sessionId then registry_get m (to_string sessionId) else None) with
  | Some (OwnTransport transport) => Ok (HandleRequest transport (Some (body req)), m)
  | Some InheritedMember => Throw TypeError
  | None =>
      if (negb (truthy sessionId) && isInitializeRequest (body req)) || validUUID sessionId then
        let '(transport, m) := newTransport sessionId m in
        Ok (HandleRequest transport (Some (body req)), m)
      else
        Ok (StatusJson 404 no_valid_session, m)
  end.

(** [getDelete(req, res)], registered for DELETE, up to its answer or to
    the call of [transport.handleRequest]. *)
Definition getDelete (req : Request) (m : Middleware) : result (Reply * Middleware) :=
  sessionId ← header (Some (headers req)) "mcp-session-id";
  match (if truthy sessionId then registry_get m (to_string sessionId) else None) with
  | None =>
      Ok (StatusSend 400
            ("Invalid or missing session ID: " +:+
             (if truthy sessionId then slice (to_string sessionId) 0 8 else "none")), m)
  | Some (OwnTransport transport) => Ok (HandleRequest transport None, m)
  | Some InheritedMember => Throw TypeError
  end.

(** The operations of the middleware on its state: a request handled, or
    one of the callbacks it installed being invoked.  The SDK invokes the
    on-session-initialized callback of a transport right after it assigned
    the generated id to the transport's [sessionId], with that id, and only
    when the id is non-empty. *)
Inductive step (m : Middleware) : Middleware -> Prop :=
| step_post req reply m' :
    post req m = Ok (reply, m') -> step m m'
| step_getDelete req reply m' :
    getDelete req m = Ok (reply, m') -> step m m'
| step_session_initialized transport t id :
    heap m !! transport = Some t ->
    onsessioninitialized t = Some (RegisterTransport transport) ->
    sessionId t = Some id ->
    id ≠ "" ->
    step m (call_onsessioninitialized (RegisterTransport transport) id m)
| step_close transport t cb :
    heap m !! transport = Some t ->
    onclose t = Some cb ->
    step m (call_onclose cb m).

(** Every registry entry leads to a transport bound to the entry's id. *)
Definition registry_bound (m : Middleware) : Prop :=
  forall id l, transports m !! id = Some l ->
    exists t, heap m !! l = Some t /\ sessionId t = Some id.

(** The registry holds no entry under the empty id. *)
Definition no_empty_key (m : Middleware) : Prop :=
  transports m !! "" = None.

End Mcp.

(** ** [lib/store.ts] *)

Module Store.

(** The [chess.js] collaborator: a game, the FEN text of its position, and
    the constructor [new Chess(fen)], which throws on text it rejects. *)
Class ChessEngine : Type := {
  Chess : Type;
  fen : Chess -> string;
  new_Chess : string -> result Chess
}.

(** The file system as the store uses it: the directories that exist and
    the text files by path.  Failures of the operating system are outside
    the model, and so is the UTF-8 coding of the text on disk. *)
Record FileSystem : Type := mkFileSystem {
  directories : gset string;
  files : gmap string string
}.

Definition existsSync (path : string) (fs : FileSystem) : bool :=
  bool_decide (path ∈ directories fs) || bool_decide (is_Some (files fs !! path)).

Definition mkdir (path : string) (fs : FileSystem) : FileSystem :=
  mkFileSystem ({[path]} ∪ directories fs) (files fs).

Definition writeFile (path data : string) (fs : FileSystem) : FileSystem :=
  mkFileSystem (directories fs) (<[path := data]> (files fs)).

Definition readFile (path : string) (fs : FileSystem) : result string :=
  match files fs !! path with
  | Some data => Ok data
  | None => Throw ENOENT
  end.

(** *** [JSON.stringify] and [JSON.parse] on a string value *)

Definition quote : ascii := ascii_of_nat 34.
Definition backslash : ascii := ascii_of_nat 92.

(** The lower-case hexadecimal digit of a number below 16. *)
Definition hex_digit (n : nat) : ascii :=
  if n <? 10 then ascii_of_nat (48 + n) else ascii_of_nat (87 + n).

(** [QuoteJSONString] on one code unit: the two-character escapes, [\u00XX]
    for the other control characters, and the character itself otherwise. *)
Definition escape (c : ascii) : string :=
  let n := nat_of_ascii c in
  if n =? 8 then "\b"
  else if n =? 9 then "\t"
  else if n =? 10 then "\n"
  else if n =? 12 then "\f"
  else if n =? 13 then "\r"
  else if n =? 34 then String backslash (String quote "")
  else if n =? 92 then String backslash (String backslash "")
  else if n <? 32 then "\u00" +:+ String (hex_digit (n / 16)) (String (hex_digit (n mod 16)) "")
  else String c "".

Fixpoint quote_chars (s : string) : string :=
  match s with
  | EmptyString => ""
  | String c s' => escape c +:+ quote_chars s'
  end.

(** [JSON.stringify(value, null, 2)] for a string [value]: the indentation
    has nothing to indent. *)
Definition JSON_stringify (value : string) : string :=
  String quote (quote_chars value +:+ String quote "").

Definition is_whitespace (c : ascii) : bool :=
  let n := nat_of_ascii c in
  (n =? 32) || (n =? 9) || (n =? 10) || (n =? 13).

Fixpoint skip_whitespace (s : string) : string :=
  match s with
  | String c s' => if is_whitespace c then skip_whitespace s' else s
  | EmptyString => ""
  end.

Definition hex_value (c : ascii) : option nat :=
  let n := nat_of_ascii c in
  if (48 <=? n) && (n <=? 57) then Some (n - 48)
  else if (97 <=? n) && (n <=? 102) then Some (n - 87)
  else if (65 <=? n) && (n <=? 70) then Some (n - 55)
  else None.

(** The character a two-character escape stands for. *)
Definition unescape (e : ascii) : option ascii :=
  let n := nat_of_ascii e in
  if n =? 34 then Some quote
  else if n =? 92 then Some backslash
  else if n =? 47 then Some "/"%char
  else if n =? 98 then Some (ascii_of_nat 8)
  else if n =? 102 then Some (ascii_of_nat 12)
  else if n =? 110 then Some (ascii_of_nat 10)
  else if n =? 114 then Some (ascii_of_nat 13)
  else if n =? 116 then Some (ascii_of_nat 9)
  else None.

Definition prepend (c : ascii) (r : result (string * string)) : result (string * string) :=
  '(decoded, rest) ← r; Ok (String c decoded, rest).

(** The characters of a string literal after its opening quote: the decoded
    string and the text after the closing quote.  An escape [\uXXXX] of a
    code unit of 256 or more leaves the strings represented here. *)
Fixpoint parse_chars (s : string) : result (string * string) :=
  match s with
  | EmptyString => Throw SyntaxError
  | String c s' =>
      if Ascii.eqb c quote then Ok ("", s')
      else if Ascii.eqb c backslash then
        match s' with
        | EmptyString => Throw SyntaxError
        | String e s'' =>
            match unescape e with
            | Some d => prepend d (parse_chars s'')
            | None =>
                if Ascii.eqb e "u"%char then
                  match s'' with
                  | String h1 (String h2 (String h3 (String h4 s5))) =>
                      match hex_value h1, hex_value h2, hex_value h3, hex_value h4 with
                      | Some d1, Some d2, Some d3, Some d4 =>
                          let n := ((d1 * 16 + d2) * 16 + d3) * 16 + d4 in
                          if n <? 256 then prepend (ascii_of_nat n) (parse_chars s5)
                          else Throw Unmodelled
                      | _, _, _, _ => Throw SyntaxError
                      end
                  | _ => Throw SyntaxError
                  end
                else Throw SyntaxError
            end
        end
      else if nat_of_ascii c <? 32 then Throw SyntaxError
      else prepend c (parse_chars s')
  end.

(** [JSON.parse(text)] on a text that holds one string literal.  A text
    that starts another kind of JSON value is not represented. *)
Definition JSON_parse (text : string) : result string :=
  match skip_whitespace text with
  | EmptyString => Throw SyntaxError
  | String c s =>
      if Ascii.eqb c quote then
        '(decoded, rest) ← parse_chars s;
        match skip_whitespace rest with
        | EmptyString => Ok decoded
        | String _ _ => Throw SyntaxError
        end
      else Throw Unmodelled
  end.

(** *** The store *)

(** [`./games/${sessionId}.json`] *)
Definition game_path (sessionId : option string) : string :=
  "./games/" +:+ to_string sessionId +:+ ".json".

(** [saveGame(sessionId, game)] *)
Definition saveGame `{ChessEngine} (sessionId : option string) (game : Chess)
    (fs : FileSystem) : FileSystem :=
  let fs := if negb (existsSync "./games" fs) then mkdir "./games" fs else fs in
  writeFile (game_path sessionId) (JSON_stringify (fen game)) fs.

(** [loadGame(sessionId)] *)
Definition loadGame `{ChessEngine} (sessionId : option string)
    (fs : FileSystem) : result (option Chess) :=
  if negb (existsSync (game_path sessionId) fs) || negb (truthy sessionId) then Ok None
  else
    data ← readFile (game_path sessionId) fs;
    fen ← JSON_parse data;
    game ← new_Chess fen;
    Ok (Some game).

(** An engine that keeps nothing but the position: a game is its FEN text. *)
Definition position_only : ChessEngine :=
  {| Chess := string; fen := fun g => g; new_Chess := fun text => Ok text |}.

(** An engine whose games also carry the moves played; [new Chess(fen)]
    starts from the position with no history. *)
Definition with_history : ChessEngine :=
  {| Chess := string * list string;
     fen := fun g => fst g;
     new_Chess := fun text => Ok (text, []) |}.

Fixpoint occurs (c : ascii) (s : string) : bool :=
  match s with
  | EmptyString => false
  | String d s' => Ascii.eqb c d || occurs c s'
  end.

(** An engine that, like [position_only], keeps the position only, and
    whose [new Chess(fen)] rejects a text with no white or no black king
    in it. *)
Definition kings_required : ChessEngine :=
  {| Chess := string;
     fen := fun g => g;
     new_Chess := fun text =>
       if occurs "K"%char text && occurs "k"%char text then Ok text
       else Throw EngineError |}.

(** Sample data: the position after 1. e4, the empty board, and an empty
    disk. *)
Definition sample_position : string :=
  "rnbqkbnr/pppppppp/8/8/4P3/8/PPPPPPPP/RNBQKBNR b KQkq - 0 1".

Definition empty_board : string := "8/8/8/8/8/8/8/8 w - - 0 1".

Definition empty_disk : FileSystem := mkFileSystem ∅ ∅.

End Store.

(** ** [server.ts]: the [chess_move] tool *)

Module Tool.
Import Store.

(** The rest of the [chess.js] interface the tool uses: [new Chess()],
    [game.move(san)] (the game after the move; it throws when the engine
    rejects the text), [game.moves()] and [game.ascii()]. *)
Class ChessRules `{ChessEngine} : Type := {
  start_game : Chess;
  game_move : Chess -> string -> result Chess;
  game_moves : Chess -> list string;
  game_ascii : Chess -> string
}.

(** White space and line terminators among the code units below 256:
    TAB, LF, VT, FF, CR, SPACE and NO-BREAK SPACE. *)
Definition is_js_space (c : ascii) : bool :=
  let n := nat_of_ascii c in
  ((9 <=? n) && (n <=? 13)) || (n =? 32) || (n =? 160).

Fixpoint trim_start (s : string) : string :=
  match s with
  | String c s' => if is_js_space c then trim_start s' else s
  | EmptyString => ""
  end.

Fixpoint trim_end (s : string) : string :=
  match s with
  | EmptyString => ""
  | String c s' =>
      match trim_end s' with
      | EmptyString => if is_js_space c then "" else String c ""
      | rest => String c rest
      end
  end.

(** [s.trim()] *)
Definition trim (s : string) : string := trim_end (trim_start s).

Fixpoint all_space (s : string) : bool :=
  match s with
  | EmptyString => true
  | String c s' => is_js_space c && all_space s'
  end.

Definition first_char (s : string) : option ascii := String.get 0 s.

Fixpoint last_char (s : string) : option ascii :=
  match s with
  | EmptyString => None
  | String c EmptyString => Some c
  | String _ s' => last_char s'
  end.

Definition newline : string := String (ascii_of_nat 10) "".

(** The template literal of the reply; an array in a template literal is
    its elements joined by commas. *)
Definition board_text `{ChessRules} (game : Chess) : string :=
  "Current board state:" +:+ newline +:+
  "          FEN: " +:+ fen game +:+ newline +:+
  "          VALID MOVES: " +:+ String.concat "," (game_moves game) +:+ newline +:+
  "          " +:+ newline +:+
  "          " +:+ game_ascii game.

Record Content : Type := mkContent {
  type : string;
  text : string
}.

(** The handler of [chess_move]: what it returns or throws, and the disk it
    leaves. *)
Definition chess_move `{ChessRules} (move : string) (sessionId : option string)
    (fs : FileSystem) : result (list Content) * FileSystem :=
  match loadGame sessionId fs with
  | Throw e => (Throw e, fs)
  | Ok game =>
      let game :=
        if String.eqb move "new" then start_game
        else match game with
             | None => start_game
             | Some game => game
             end in
      match game_move game (trim move) with
      | Throw e => (Throw e, fs)
      | Ok game =>
          let fs := saveGame sessionId game fs in
          (Ok [mkContent "text" (board_text game)], fs)
      end
  end.

(** Sample rules over [with_history]: a move is any text but the empty one
    and [new]; it is appended to the history and to the position. *)
Definition sample_rules : @ChessRules with_history :=
  {| start_game := (sample_position, []) : @Chess with_history;
     game_move := fun (g : @Chess with_history) san =>
       if String.eqb san "" || String.eqb san "new" then Throw EngineError
       else Ok (fst g +:+ " " +:+ san, snd g ++ [san]);
     game_moves := fun _ => ["a3"; "a4"];
     game_ascii := fun g => fst g |}.

End Tool.

(** ** Predicates the further properties are stated with *)

Module Invariants.
Import Uuid Mcp Store.

(** The place of each character of a well-formed id: a hyphen at offsets
    8, 13, 18 and 23, a hexadecimal digit elsewhere. *)
Definition uuid_char_ok (i : nat) (c : ascii) : bool :=
  if (i =? 8) || (i =? 13) || (i =? 18) || (i =? 23) then Ascii.eqb c hyphen
  else is_hex_digit c.

Definition well_placed (s : string) : Prop :=
  String.length s = 36 /\
  forall (i : nat) (c : ascii), String.get i s = Some c -> uuid_char_ok i c = true.

(** A string with its ASCII letters in upper case. *)
Fixpoint uppercase (s : string) : string :=
  match s with
  | EmptyString => ""
  | String c s' => String (to_upper c) (uppercase s')
  end.

(** Every transport in the heap is connected, carries the close callback
    over itself and, if it has an on-session-initialized callback, that
    callback registers the transport itself. *)
Definition transports_wired (m : Middleware) : Prop :=
  forall (l : loc) (t : Transport), heap m !! l = Some t ->
    connected t = true /\
    onclose t = Some (DeleteOwnEntry l) /\
    (forall cb, onsessioninitialized t = Some cb -> cb = RegisterTransport l).

(** The characters of a plain file name: ASCII letters and digits, the
    hyphen and the underscore. *)
Definition is_name_char (c : ascii) : bool :=
  let n := nat_of_ascii c in
  ((48 <=? n) && (n <=? 57)) || ((65 <=? n) && (n <=? 90)) ||
  ((97 <=? n) && (n <=? 122)) || (n =? 45) || (n =? 95).

(** A session id that names a file and nothing more: not empty, without a
    separator or a dot, and short enough for the name with its [.json] to
    fit a directory entry.  The path [game_path] builds from such an id is
    an entry of [./games] itself.  Every id [validUUID] accepts is one. *)
Definition plain_name (s : string) : bool :=
  negb (String.eqb s "") &&
  forallb is_name_char (list_ascii_of_string s) &&
  (String.length s <=? 250).

(** A disk on which the store's writes under a session id go through:
    [./games] is a directory or missing, not a regular file, and the path
    of the session is not taken by a directory.  (The entries of [./games]
    are regular files, one under each name, and the operating system
    refuses no write.) *)
Definition usable_disk (sessionId : option string) (fs : FileSystem) : Prop :=
  files fs !! "./games" = None /\ game_path sessionId ∉ directories fs.

(** A disk on which nothing but [saveGame] has written: the only directory
    is [./games] and every file holds a stringified string. *)
Definition written_by_saveGame (fs : FileSystem) : Prop :=
  (forall path : string, path ∈ directories fs -> path = "./games") /\
  (forall path data : string, files fs !! path = Some data ->
     exists value : string, data = JSON_stringify value).

End Invariants.

(** * Properties *)

(** ** The session identifier validator *)

Section UuidFacts.
Import Uuid.

Lemma hex_class_matches (ch : ascii) :
  char_set_matches true (class_members [("0"%char, "9"%char); ("a"%char, "f"%char)]) ch
  = is_hex_digit ch.
Proof. destruct ch as [[] [] [] [] [] [] [] []]; vm_compute; reflexivity. Qed.

Lemma hyphen_matches (ch : ascii) :
  char_set_matches true ["-"%char] ch = Ascii.eqb ch hyphen.
Proof. destruct ch as [[] [] [] [] [] [] [] []]; vm_compute; reflexivity. Qed.

Lemma iter_flat_map_nil {A : Type} (f : A -> list A) (n : nat) :
  Nat.iter n (fun rests => flat_map f rests) [] = [].
Proof. induction n as [|n IH]; simpl; [reflexivity | now rewrite IH]. Qed.

Lemma matches_hex_class (s : list ascii) :
  matches true hex_class s = option_list (strip_hex 1 s).
Proof.
  destruct s as [|ch s]; [reflexivity|].
  unfold hex_class. cbn [matches strip_hex]. rewrite hex_class_matches.
  now destruct (is_hex_digit ch).
Qed.

Lemma matches_rep_hex (n : nat) (s : list ascii) :
  matches true (Rep hex_class n) s = option_list (strip_hex n s).
Proof.
  cbn [matches]. revert s. induction n as [|n IH]; intros s; [reflexivity|].
  rewrite Nat.iter_succ_r. cbn [flat_map]. rewrite app_nil_r, matches_hex_class.
  destruct s as [|ch s]; cbn [strip_hex].
  - apply iter_flat_map_nil.
  - destruct (is_hex_digit ch); cbn [option_list]; [apply IH | apply iter_flat_map_nil].
Qed.

Lemma matches_hyphen (s : list ascii) :
  matches true (Chr "-"%char) s = option_list (strip_hyphen s).
Proof.
  destruct s as [|ch s]; [reflexivity|].
  cbn [matches strip_hyphen]. rewrite hyphen_matches.
  now destruct (Ascii.eqb ch hyphen).
Qed.

Lemma matches_cat (r1 r2 : regex) (f1 f2 : list ascii -> option (list ascii)) :
  (forall s, matches true r1 s = option_list (f1 s)) ->
  (forall s, matches true r2 s = option_list (f2 s)) ->
  forall s, matches true (Cat r1 r2) s = option_list (f1 s ≫= f2).
Proof.
  intros H1 H2 s. cbn [matches]. rewrite H1.
  destruct (f1 s) as [rest|]; cbn; [|reflexivity].
  now rewrite app_nil_r, H2.
Qed.

Lemma matches_uuid_pattern (s : list ascii) :
  matches true uuid_pattern s = option_list (strip_uuid s).
Proof.
  unfold uuid_pattern, strip_uuid. revert s.
  repeat first
    [ exact (matches_rep_hex _)
    | exact matches_hyphen
    | apply matches_cat ].
Qed.

Lemma strip_hex_app (n : nat) (g rest : list ascii) :
  hex_group n g -> strip_hex n (g ++ rest) = Some rest.
Proof.
  revert g. induction n as [|n IH]; intros g [Hlen Hhex].
  - destruct g; [reflexivity | discriminate].
  - destruct g as [|c g]; [discriminate|].
    cbn in Hhex. apply andb_true_iff in Hhex as [Hc Hg].
    cbn. rewrite Hc. apply IH. split; [now injection Hlen | exact Hg].
Qed.

Lemma strip_hex_inv (n : nat) (s rest : list ascii) :
  strip_hex n s = Some rest -> exists g, s = g ++ rest /\ hex_group n g.
Proof.
  revert s. induction n as [|n IH]; intros s H.
  - injection H as ->. exists []. repeat split.
  - destruct s as [|c s]; [discriminate|]. cbn in H.
    destruct (is_hex_digit c) eqn:Hc; [|discriminate].
    destruct (IH _ H) as (g & -> & Hlen & Hhex).
    exists (c :: g). repeat split; cbn; [now rewrite Hlen | now rewrite Hc].
Qed.

Lemma strip_hyphen_inv (s rest : list ascii) :
  strip_hyphen s = Some rest -> s = hyphen :: rest.
Proof.
  destruct s as [|c s]; [discriminate|]. cbn.
  destruct (Ascii.eqb c hyphen) eqn:Hc; [|discriminate].
  apply Ascii.eqb_eq in Hc as ->. now intros [= ->].
Qed.

Lemma strip_uuid_spec (s rest : list ascii) :
  strip_uuid s = Some rest <->
  exists g1 g2 g3 g4 g5 : list ascii,
    s = g1 ++ hyphen :: g2 ++ hyphen :: g3 ++ hyphen :: g4 ++ hyphen :: g5 ++ rest /\
    hex_group 8 g1 /\ hex_group 4 g2 /\ hex_group 4 g3 /\ hex_group 4 g4 /\ hex_group 12 g5.
Proof.
  unfold strip_uuid. split.
  - intros H.
    destruct (strip_hex 8 s) as [s1|] eqn:E1; [cbn [mbind option_bind] in H | discriminate].
    destruct (strip_hyphen s1) as [s2|] eqn:E2; [cbn [mbind option_bind] in H | discriminate].
    destruct (strip_hex 4 s2) as [s3|] eqn:E3; [cbn [mbind option_bind] in H | discriminate].
    destruct (strip_hyphen s3) as [s4|] eqn:E4; [cbn [mbind option_bind] in H | discriminate].
    destruct (strip_hex 4 s4) as [s5|] eqn:E5; [cbn [mbind option_bind] in H | discriminate].
    destruct (strip_hyphen s5) as [s6|] eqn:E6; [cbn [mbind option_bind] in H | discriminate].
    destruct (strip_hex 4 s6) as [s7|] eqn:E7; [cbn [mbind option_bind] in H | discriminate].
    destruct (strip_hyphen s7) as [s8|] eqn:E8; [cbn [mbind option_bind] in H | discriminate].
    apply strip_hex_inv in E1 as (g1 & -> & H1), E3 as (g2 & -> & H2),
      E5 as (g3 & -> & H3), E7 as (g4 & -> & H4), H as (g5 & -> & H5).
    apply strip_hyphen_inv in E2 as ->, E4 as ->, E6 as ->, E8 as ->.
    exists g1, g2, g3, g4, g5. split; [reflexivity | tauto].
  - intros (g1 & g2 & g3 & g4 & g5 & -> & H1 & H2 & H3 & H4 & H5).
    rewrite (strip_hex_app _ _ _ H1). cbn [mbind option_bind strip_hyphen hyphen Ascii.eqb Bool.eqb].
    rewrite (strip_hex_app _ _ _ H2). cbn [mbind option_bind strip_hyphen hyphen Ascii.eqb Bool.eqb].
    rewrite (strip_hex_app _ _ _ H3). cbn [mbind option_bind strip_hyphen hyphen Ascii.eqb Bool.eqb].
    rewrite (strip_hex_app _ _ _ H4). cbn [mbind option_bind strip_hyphen hyphen Ascii.eqb Bool.eqb].
    apply strip_hex_app, H5.
Qed.

Lemma test_uuid_pattern (s : string) :
  test_anchored true uuid_pattern s = true <-> uuid_shape s.
Proof.
  unfold test_anchored, uuid_shape. rewrite matches_uuid_pattern.
  destruct (strip_uuid (list_ascii_of_string s)) as [rest|] eqn:E.
  - cbn. rewrite orb_false_r. split.
    + destruct rest; [intros _ | discriminate].
      apply strip_uuid_spec in E as (g1 & g2 & g3 & g4 & g5 & E & H).
      rewrite app_nil_r in E. now exists g1, g2, g3, g4, g5.
    + intros (g1 & g2 & g3 & g4 & g5 & Hs & H).
      assert (strip_uuid (list_ascii_of_string s) = Some []) as E'.
      { apply strip_uuid_spec. exists g1, g2, g3, g4, g5. now rewrite app_nil_r. }
      rewrite E in E'. now injection E' as ->.
  - cbn. split; [discriminate|].
    intros (g1 & g2 & g3 & g4 & g5 & Hs & H).
    assert (strip_uuid (list_ascii_of_string s) = Some []) as E'.
    { apply strip_uuid_spec. exists g1, g2, g3, g4, g5. now rewrite app_nil_r. }
    congruence.
Qed.

Lemma length_list_ascii_of_string (s : string) :
  length (list_ascii_of_string s) = String.length s.
Proof. induction s as [|c s IH]; cbn; [reflexivity | now rewrite IH]. Qed.

Lemma uuid_shape_length (s : string) :
  uuid_shape s -> String.length s = 36.
Proof.
  intros (g1 & g2 & g3 & g4 & g5 & E & [L1 _] & [L2 _] & [L3 _] & [L4 _] & [L5 _]).
  rewrite <- length_list_ascii_of_string, E.
  repeat (rewrite length_app; cbn [length]). lia.
Qed.

Lemma truthy_Some (s : string) : truthy (Some s) = true <-> s ≠ "".
Proof.
  cbn. destruct (String.eqb_spec s ""); cbn; split; congruence.
Qed.

(** C6.  [validUUID] holds exactly of the strings that are present, not
    empty, and made of five groups of 8, 4, 4, 4 and 12 hexadecimal digits
    (either case) joined by hyphens, with nothing before, between or after;
    it is false on an absent and on an empty input. *)
Theorem validUUID_iff_uuid_shape :
  (forall id : option string,
     Uuid.validUUID id = true <-> exists s, id = Some s /\ s ≠ "" /\ Uuid.uuid_shape s)
  /\ Uuid.validUUID None = false
  /\ Uuid.validUUID (Some "") = false.
Proof.
  split; [|split; reflexivity].
  intros id. unfold validUUID. destruct id as [s|]; cbn [truthy to_string negb].
  - destruct (String.eqb_spec s "") as [->|Hne]; cbn [negb].
    + split; [discriminate | intros (s & [= <-] & Hs & _); congruence].
    + rewrite test_uuid_pattern. split.
      * intros H. now exists s.
      * now intros (s' & [= <-] & _ & H).
  - split; [discriminate | intros (s & [=] & _)].
Qed.

(** A well-formed id has the shape, by the theorem. *)
Lemma validUUID_iff_uuid_shape_witness :
  exists s : string, Some Mcp.sample_id = Some s /\ s ≠ "" /\ uuid_shape s.
Proof.
  apply (proj1 (proj1 validUUID_iff_uuid_shape (Some Mcp.sample_id))).
  reflexivity.
Defined.

(** A valid id is never empty, hence truthy. *)
Lemma validUUID_truthy (id : option string) :
  validUUID id = true -> truthy id = true.
Proof.
  unfold validUUID. destruct (truthy id); [reflexivity | discriminate].
Qed.

(** No well-formed id is the name of a member inherited from
    [Object.prototype]. *)
Lemma validUUID_not_inherited (s : string) :
  validUUID (Some s) = true -> inherited s = false.
Proof.
  intros Hv. unfold inherited, object_prototype_members. cbn [existsb].
  repeat match goal with
         | |- context [String.eqb s ?n] =>
             destruct (String.eqb_spec s n) as [->|_];
             [vm_compute in Hv; discriminate Hv | cbn [orb]]
         end.
  reflexivity.
Qed.

(** The validator on sample inputs: either case is accepted; a short id, a
    group of the wrong length, a letter beyond [f], a trailing line break
    and a leading space are rejected. *)
Example validUUID_samples :
  validUUID (Some "123e4567-E89B-12d3-a456-426614174000") = true /\
  validUUID (Some "1234") = false /\
  validUUID (Some "123e4567-e89b-12d3-a456-42661417400") = false /\
  validUUID (Some "123e4567-e89b-12d3-a456-42661417400g") = false /\
  validUUID (Some (String.append "123e4567-e89b-12d3-a456-426614174000"
                     (String (ascii_of_nat 10) ""))) = false /\
  validUUID (Some " 123e4567-e89b-12d3-a456-426614174000") = false.
Proof. vm_compute. repeat split. Qed.

End UuidFacts.

(** ** The header extractor *)

Section HeaderFacts.
Import Header.

Lemma header_Some (h : gmap string Value) (name : string) :
  header (Some h) name =
  Ok (match h !! name with
      | Some (VArray l) => l !! 0
      | Some (VString s) => Some s
      | Some VUndefined | None => None
      end).
Proof.
  unfold header, get_property. cbn.
  destruct (h !! name) as [[| |]|]; reflexivity.
Qed.

(** The one header name the router asks for is not an inherited one. *)
Lemma session_header_not_inherited : inherited "mcp-session-id" = false.
Proof. reflexivity. Qed.

(** C7, on the names that are not inherited.  On a headers mapping,
    [header] returns none when the named header is absent and the name is
    not that of a member inherited from [Object.prototype], the first
    element when the stored value is a sequence, and the stored string
    itself when it is a scalar (an own property hides an inherited member).
    On an absent header named as an inherited member, [constructor] for
    one, the source's [headers[name]] is that member, a function, which
    [header] returns as it is: not none, and not a string. *)
Theorem header_extracts (h : gmap string Header.Value) (name : string) :
  (inherited name = false -> h !! name = None -> Header.header (Some h) name = Ok None) /\
  (forall (x : string) (l : list string),
     h !! name = Some (Header.VArray (x :: l)) -> Header.header (Some h) name = Ok (Some x)) /\
  (forall s : string,
     h !! name = Some (Header.VString s) -> Header.header (Some h) name = Ok (Some s)).
Proof.
  repeat split; intros; rewrite header_Some;
    repeat match goal with E : _ !! _ = _ |- _ => rewrite E; clear E end; reflexivity.
Qed.

(** The two examples of the specification, from the theorem. *)
Lemma header_extracts_examples :
  Header.header (Some {[ "mcp-session-id" := Header.VString "abc" ]}) "mcp-session-id"
    = Ok (Some "abc") /\
  Header.header (Some {[ "mcp-session-id" := Header.VArray ["abc"; "def"] ]}) "mcp-session-id"
    = Ok (Some "abc") /\
  Header.header (Some {[ "other" := Header.VString "abc" ]}) "mcp-session-id"
    = Ok None.
Proof.
  split; [|split].
  - apply (proj2 (proj2
      (header_extracts {[ "mcp-session-id" := VString "abc" ]} "mcp-session-id"))).
    reflexivity.
  - apply (proj1 (proj2
      (header_extracts {[ "mcp-session-id" := VArray ["abc"; "def"] ]} "mcp-session-id"))
      "abc" ["def"]).
    reflexivity.
  - apply (proj1 (header_extracts {[ "other" := VString "abc" ]} "mcp-session-id")).
    + reflexivity.
    + reflexivity.
Defined.

(** C10.  [header] never throws: it returns none when the headers mapping
    itself is none (the guard comes before the property access, which would
    throw), none when the stored value is an empty sequence, and some
    result on every input. *)
Theorem header_never_throws :
  (forall name : string, Header.header None name = Ok None) /\
  (forall (h : gmap string Header.Value) (name : string),
     h !! name = Some (Header.VArray []) -> Header.header (Some h) name = Ok None) /\
  (forall (headers : option (gmap string Header.Value)) (name : string),
     exists v : option string, Header.header headers name = Ok v).
Proof.
  split; [reflexivity | split].
  - intros h name H. rewrite header_Some. now rewrite H.
  - intros [h|] name; [rewrite header_Some | cbn]; eauto.
Qed.

Lemma header_never_throws_witness :
  header (Some {[ "mcp-session-id" := VArray [] ]}) "mcp-session-id" = Ok None.
Proof.
  apply (proj1 (proj2 header_never_throws)). reflexivity.
Defined.

(** Without its guard the property access does throw on absent headers. *)
Lemma get_property_undefined_throws (name : string) :
  get_property None name = Throw TypeError.
Proof. reflexivity. Qed.

End HeaderFacts.

(** ** The transport lifecycle and the request router *)

Section McpFacts.
Import Header Uuid Mcp.

Lemma alter_snoc {A : Type} (f : A -> A) (l : list A) (x : A) :
  alter f (length l) (l ++ [x]) = l ++ [f x].
Proof.
  rewrite alter_app_r_alt by lia. now rewrite Nat.sub_diag.
Qed.

Lemma lookup_snoc_new {A : Type} (l : list A) (x : A) :
  (l ++ [x]) !! length l = Some x.
Proof. now rewrite list_lookup_middle. Qed.

Lemma newTransport_explicit (s : string) (m : Middleware) :
  s ≠ "" ->
  newTransport (Some s) m =
  (length (heap m),
   mkMiddleware (<[s := length (heap m)]> (transports m))
                (heap m ++ [explicit_transport s (length (heap m))])).
Proof.
  intros Hs. unfold newTransport.
  rewrite (proj2 (truthy_Some s) Hs).
  unfold alloc, update, registry_put. cbn.
  now rewrite !alter_snoc.
Qed.

Lemma newTransport_generated (sid : option string) (m : Middleware) :
  truthy sid = false ->
  newTransport sid m =
  (length (heap m),
   mkMiddleware (transports m) (heap m ++ [generated_transport (length (heap m))])).
Proof.
  intros Hs. unfold newTransport. rewrite Hs.
  unfold alloc, update. cbn.
  now rewrite !alter_snoc.
Qed.

Lemma truthy_false (sid : option string) :
  truthy sid = false <-> sid = None \/ sid = Some "".
Proof.
  destruct sid as [s|]; cbn.
  - rewrite negb_false_iff, String.eqb_eq. split.
    + intros ->. now right.
    + intros [H|H]; congruence.
  - split; [now left | reflexivity].
Qed.

Lemma newTransport_cases (sid : option string) (m : Middleware) :
  (exists s, sid = Some s /\ s ≠ "" /\
     newTransport sid m =
     (length (heap m),
      mkMiddleware (<[s := length (heap m)]> (transports m))
                   (heap m ++ [explicit_transport s (length (heap m))]))) \/
  (truthy sid = false /\
     newTransport sid m =
     (length (heap m),
      mkMiddleware (transports m) (heap m ++ [generated_transport (length (heap m))]))).
Proof.
  destruct (truthy sid) eqn:Ht.
  - left. destruct sid as [s|]; [|discriminate].
    apply truthy_Some in Ht. exists s. auto using newTransport_explicit.
  - right. auto using newTransport_generated.
Qed.

Lemma newTransport_onclose (sid : option string) (m : Middleware) :
  exists t, heap (snd (newTransport sid m)) !! fst (newTransport sid m) = Some t /\
            onclose t = Some (DeleteOwnEntry (fst (newTransport sid m))).
Proof.
  destruct (newTransport_cases sid m) as [(s & -> & Hs & ->)|[_ ->]]; cbn;
    eexists; (split; [apply lookup_snoc_new | reflexivity]).
Qed.

(** What a request leaves of the state: nothing changes, or one transport
    was created. *)
Lemma post_unfold (req : Request) (m : Middleware) :
  post req m =
  let sessionId :=
    match headers req !! "mcp-session-id" with
    | Some (VArray l) => l !! 0
    | Some (VString s) => Some s
    | Some VUndefined | None => None
    end in
  match (if truthy sessionId then transports m !! to_string sessionId else None) with
  | Some transport => Ok (HandleRequest transport (Some (body req)), m)
  | None =>
      if truthy sessionId && inherited (to_string sessionId) then Throw TypeError
      else if (negb (truthy sessionId) && isInitializeRequest (body req)) || validUUID sessionId then
        Ok (HandleRequest (fst (newTransport sessionId m)) (Some (body req)),
            snd (newTransport sessionId m))
      else
        Ok (StatusJson 404 no_valid_session, m)
  end.
Proof.
  unfold post, registry_get. rewrite header_Some. cbn [mbind result_bind Js.bind].
  destruct (newTransport _ m). cbv zeta.
  destruct (truthy _); [|reflexivity]. cbn [andb].
  destruct (transports m !! _); [reflexivity|].
  now destruct (inherited _).
Qed.

Lemma post_with_header (req : Request) (m : Middleware) (sid : option string) :
  header (Some (headers req)) "mcp-session-id" = Ok sid ->
  post req m =
  match (if truthy sid then transports m !! to_string sid else None) with
  | Some transport => Ok (HandleRequest transport (Some (body req)), m)
  | None =>
      if truthy sid && inherited (to_string sid) then Throw TypeError
      else if (negb (truthy sid) && isInitializeRequest (body req)) || validUUID sid then
        Ok (HandleRequest (fst (newTransport sid m)) (Some (body req)),
            snd (newTransport sid m))
      else
        Ok (StatusJson 404 no_valid_session, m)
  end.
Proof.
  rewrite header_Some. intros [= <-]. apply post_unfold.
Qed.

Lemma getDelete_with_header (req : Request) (m : Middleware) (sid : option string) :
  header (Some (headers req)) "mcp-session-id" = Ok sid ->
  getDelete req m =
  match (if truthy sid then transports m !! to_string sid else None) with
  | None =>
      if truthy sid && inherited (to_string sid) then Throw TypeError
      else
        Ok (StatusSend 400
              ("Invalid or missing session ID: " +:+
               (if truthy sid then slice (to_string sid) 0 8 else "none")), m)
  | Some transport => Ok (HandleRequest transport None, m)
  end.
Proof.
  intros H. unfold getDelete, registry_get. rewrite H. cbn [mbind result_bind Js.bind].
  destruct (truthy sid); [|reflexivity]. cbn [andb].
  destruct (transports m !! _); [reflexivity|].
  now destruct (inherited _).
Qed.

Lemma post_state (req : Request) (m m' : Middleware) (reply : Reply) :
  post req m = Ok (reply, m') ->
  m' = m \/ exists sid, m' = snd (newTransport sid m).
Proof.
  rewrite post_unfold. cbv zeta.
  destruct (if truthy _ then _ else _); [intros [= _ <-]; auto|].
  destruct (_ && inherited _); [discriminate|].
  destruct (_ || _); intros [= _ <-]; eauto.
Qed.

Lemma getDelete_state (req : Request) (m m' : Middleware) (reply : Reply) :
  getDelete req m = Ok (reply, m') -> m' = m.
Proof.
  destruct (header (Some (headers req)) "mcp-session-id") as [sid|e] eqn:Hh;
    [|rewrite header_Some in Hh; discriminate].
  rewrite (getDelete_with_header _ _ _ Hh).
  destruct (if truthy _ then _ else _); [now intros [= _ <-]|].
  destruct (_ && inherited _); [discriminate | now intros [= _ <-]].
Qed.

(** *** Invariants of the registry *)

(** An entry of the old registry still leads to its transport after an
    allocation: the heap only grows at its end. *)
Ltac old_entry Hm :=
  let Hl := fresh "Hl" in
  let t := fresh "t" in
  let Ht := fresh "Ht" in
  let Hsid := fresh "Hsid" in
  intros Hl; destruct (Hm _ _ Hl) as (t & Ht & Hsid);
  exists t; split; [|exact Hsid];
  rewrite lookup_app_l; [exact Ht | eapply lookup_lt_Some, Ht].

Lemma registry_bound_newTransport (sid : option string) (m : Middleware) :
  registry_bound m -> registry_bound (snd (newTransport sid m)).
Proof.
  intros Hm id l.
  destruct (newTransport_cases sid m) as [(s & -> & Hs & ->)|[_ ->]]; cbn.
  - rewrite lookup_insert. case_decide as Hid.
    + intros [= <-]. subst id.
      exists (explicit_transport s (length (heap m))).
      split; [apply lookup_snoc_new | reflexivity].
    + old_entry Hm.
  - old_entry Hm.
Qed.

Lemma no_empty_key_newTransport (sid : option string) (m : Middleware) :
  no_empty_key m -> no_empty_key (snd (newTransport sid m)).
Proof.
  unfold no_empty_key. intros Hm.
  destruct (newTransport_cases sid m) as [(s & -> & Hs & ->)|[_ ->]]; cbn.
  - now rewrite lookup_insert_ne.
  - exact Hm.
Qed.

Lemma call_onclose_state (cb : CloseCallback) (m : Middleware) :
  heap (call_onclose cb m) = heap m /\
  (transports (call_onclose cb m) = transports m \/
   exists id, transports (call_onclose cb m) = delete id (transports m)).
Proof.
  destruct cb as [l]. cbn. destruct (heap m !! l) as [t|]; [|auto].
  destruct (truthy (sessionId t)); cbn; eauto.
Qed.

Lemma registry_bound_step (m m' : Middleware) :
  step m m' -> registry_bound m -> registry_bound m'.
Proof.
  intros Hstep Hm. destruct Hstep as [req reply m' H|req reply m' H|l t id Hl Hcb Hid Hne|l t cb Hl Hcb].
  - apply post_state in H as [->|[sid ->]]; [exact Hm | now apply registry_bound_newTransport].
  - apply getDelete_state in H as ->. exact Hm.
  - intros id' l'. cbn. rewrite lookup_insert. case_decide as Hcase.
    + intros [= <-]. subst id'. now exists t.
    + apply Hm.
  - destruct (call_onclose_state cb m) as [Hheap [Htr|[id Htr]]];
      intros id' l'; rewrite Hheap, Htr; [apply Hm|].
    intros Hl'. apply lookup_delete_Some in Hl' as [_ Hl']. now apply Hm.
Qed.

Lemma no_empty_key_step (m m' : Middleware) :
  step m m' -> no_empty_key m -> no_empty_key m'.
Proof.
  unfold no_empty_key.
  intros Hstep Hm. destruct Hstep as [req reply m' H|req reply m' H|l t id Hl Hcb Hid Hne|l t cb Hl Hcb].
  - apply post_state in H as [->|[sid ->]]; [exact Hm | now apply no_empty_key_newTransport].
  - apply getDelete_state in H as ->. exact Hm.
  - cbn. now rewrite lookup_insert_ne.
  - destruct (call_onclose_state cb m) as [_ [->|[id ->]]]; [exact Hm|].
    apply lookup_delete_None. now right.
Qed.

Lemma no_empty_key_initial : no_empty_key initial.
Proof. reflexivity. Qed.

(** C8.  The registry starts, and after every operation of the middleware
    stays, such that each entry maps its id to a transport whose own
    [sessionId] is that id; so a lookup under an id yields only a transport
    bound to that id. *)
Theorem registry_binding_invariant :
  Mcp.registry_bound Mcp.initial /\
  (forall m m' : Mcp.Middleware,
     Mcp.step m m' -> Mcp.registry_bound m -> Mcp.registry_bound m') /\
  (forall (m : Mcp.Middleware) (id : string) (l : Mcp.loc) (t : Mcp.Transport),
     Mcp.registry_bound m ->
     Mcp.transports m !! id = Some l -> Mcp.heap m !! l = Some t ->
     Mcp.sessionId t = Some id).
Proof.
  split; [|split].
  - intros id l H. cbn in H. now rewrite lookup_empty in H.
  - apply registry_bound_step.
  - intros m id l t Hm Hl Ht. destruct (Hm _ _ Hl) as (t' & Ht' & Hid). congruence.
Qed.

Lemma registry_binding_invariant_witness :
  let m := mkMiddleware ∅ [mkTransport (Some sample_id) (Some RandomUUID)
                             (Some (RegisterTransport 0)) (Some (DeleteOwnEntry 0)) true] in
  let m' := call_onsessioninitialized (RegisterTransport 0) sample_id m in
  transports m' !! sample_id = Some 0 /\ registry_bound m'.
Proof.
  intros m m'. split; [reflexivity|].
  apply (proj1 (proj2 registry_binding_invariant) m m').
  - apply (step_session_initialized m 0
             (mkTransport (Some sample_id) (Some RandomUUID)
                (Some (RegisterTransport 0)) (Some (DeleteOwnEntry 0)) true)
             sample_id); try reflexivity.
    discriminate.
  - intros id l H. cbn in H. now rewrite lookup_empty in H.
Defined.

(** *** The router *)

(** C1.  The decision table of [post] (serving POST and GET), first match
    first.  In every state without an entry under the empty id (every state
    the middleware reaches), a present, registered session id is resumed:
    the request goes to the registered transport and the state is
    unchanged.  Otherwise an absent id with an initialize body, or a
    present, unregistered id that passes the validator, creates a transport
    with [newTransport] and the request goes to it.  A valid, registered id
    is resumed in every state.  The transport [newTransport] returns is one
    that did not exist before. *)
Theorem post_decision_table (req : Mcp.Request) (m : Mcp.Middleware) :
  (forall (s : string) (l : Mcp.loc),
     Mcp.no_empty_key m ->
     Header.header (Some (Mcp.headers req)) "mcp-session-id" = Ok (Some s) ->
     Mcp.transports m !! s = Some l ->
     Mcp.post req m = Ok (Mcp.HandleRequest l (Some (Mcp.body req)), m)) /\
  (Header.header (Some (Mcp.headers req)) "mcp-session-id" = Ok None ->
   Mcp.isInitializeRequest (Mcp.body req) = true ->
   Mcp.post req m =
   Ok (Mcp.HandleRequest (fst (Mcp.newTransport None m)) (Some (Mcp.body req)),
       snd (Mcp.newTransport None m))) /\
  (forall s : string,
     Header.header (Some (Mcp.headers req)) "mcp-session-id" = Ok (Some s) ->
     Mcp.transports m !! s = None ->
     Uuid.validUUID (Some s) = true ->
     Mcp.post req m =
     Ok (Mcp.HandleRequest (fst (Mcp.newTransport (Some s) m)) (Some (Mcp.body req)),
         snd (Mcp.newTransport (Some s) m))) /\
  (forall (s : string) (l : Mcp.loc),
     Header.header (Some (Mcp.headers req)) "mcp-session-id" = Ok (Some s) ->
     Uuid.validUUID (Some s) = true ->
     Mcp.transports m !! s = Some l ->
     Mcp.post req m = Ok (Mcp.HandleRequest l (Some (Mcp.body req)), m)) /\
  (forall sid : option string,
     Mcp.heap m !! fst (Mcp.newTransport sid m) = None /\
     is_Some (Mcp.heap (snd (Mcp.newTransport sid m)) !! fst (Mcp.newTransport sid m))).
Proof.
  split; [|split; [|split; [|split]]]; cycle 4.
  - intros sid. destruct (newTransport_onclose sid m) as (t & Ht & _).
    split; [|now exists t].
    destruct (newTransport_cases sid m) as [(s & -> & Hs & ->)|[_ ->]]; cbn;
      now apply lookup_ge_None_2.
  - intros s l Hm Hh Hl. rewrite (post_with_header _ _ _ Hh).
    assert (s ≠ "") as Hs by (intros ->; unfold no_empty_key in Hm; congruence).
    rewrite (proj2 (truthy_Some s) Hs). cbn [to_string]. now rewrite Hl.
  - intros Hh Hinit. rewrite (post_with_header _ _ _ Hh). cbn. now rewrite Hinit.
  - intros s Hh Hl Hv. rewrite (post_with_header _ _ _ Hh).
    rewrite (validUUID_truthy _ Hv), Hv. cbn [to_string].
    rewrite Hl, (validUUID_not_inherited _ Hv).
    now rewrite orb_true_r.
  - intros s l Hh Hv Hl. rewrite (post_with_header _ _ _ Hh).
    rewrite (validUUID_truthy _ Hv). cbn [to_string]. now rewrite Hl.
Qed.

(** A registered id is resumed and the registry keeps its one entry; the
    same id on an empty registry opens the session. *)
Lemma post_decision_table_witness :
  let m := snd (newTransport (Some sample_id) initial) in
  post (request_with (Some sample_id) false) m
    = Ok (HandleRequest 0 (Some (mkBody false "{}")), m) /\
  post (request_with (Some sample_id) false) initial
    = Ok (HandleRequest 0 (Some (mkBody false "{}")), m).
Proof.
  intros m. split.
  - apply (proj1 (post_decision_table (request_with (Some sample_id) false) m) sample_id 0);
      reflexivity.
  - apply (proj1 (proj2 (proj2 (post_decision_table (request_with (Some sample_id) false) initial)))
             sample_id); reflexivity.
Defined.

(** C4.  A POST or GET that is neither resumed nor opens a session is
    answered with status 404 and the fixed error envelope, with no transport
    created and the state unchanged: that is, when the session id is absent
    or empty and the body is not an initialize message, or when the id is
    non-empty, fails the validator (whatever the body) and is not
    registered, provided the id is not the name of a member inherited from
    [Object.prototype].  On such a name the lookup finds the inherited
    member and [post] throws a [TypeError] where the claim has a 404. *)
Theorem post_rejects_unroutable :
  (forall (req : Mcp.Request) (m : Mcp.Middleware) (sid : option string),
     Header.header (Some (Mcp.headers req)) "mcp-session-id" = Ok sid ->
     Uuid.validUUID sid = false ->
     (sid = None \/ sid = Some "" -> Mcp.isInitializeRequest (Mcp.body req) = false) ->
     (forall s : string, sid = Some s -> Mcp.transports m !! s = None /\ inherited s = false) ->
     Mcp.post req m =
     Ok (Mcp.StatusJson 404
           (Mcp.JObject
              [("jsonrpc", Mcp.JString "2.0");
               ("error", Mcp.JObject
                           [("code", Mcp.JNumber (-32000));
                            ("message", Mcp.JString "Bad Request: No valid session ID provided")]);
               ("id", Mcp.JNull)]),
         m)) /\
  (Uuid.validUUID (Some "constructor") = false /\
   Mcp.transports Mcp.initial !! "constructor" = None /\
   Mcp.isInitializeRequest (Mcp.body (Mcp.request_with (Some "constructor") false)) = false /\
   Mcp.post (Mcp.request_with (Some "constructor") false) Mcp.initial = Throw TypeError).
Proof.
  split; [|repeat split].
  intros req m sid Hh Hv Hinit Hunreg. rewrite (post_with_header _ _ _ Hh), Hv.
  destruct sid as [s|]; [|cbn; now rewrite Hinit by now left].
  destruct (Hunreg s eq_refl) as [Hl Hin]. cbn [to_string]. rewrite Hl, Hin, andb_false_r.
  destruct (truthy (Some s)) eqn:Ht; [reflexivity|].
  apply truthy_false in Ht. cbn [negb andb orb]. now rewrite (Hinit Ht).
Qed.

(** No header and no initialize body; an ill-formed id, also with an
    initialize body. *)
Lemma post_rejects_unroutable_witness :
  post (request_with None false) initial = Ok (StatusJson 404 no_valid_session, initial) /\
  post (request_with (Some "1234") true) initial = Ok (StatusJson 404 no_valid_session, initial).
Proof.
  split.
  - apply (proj1 post_rejects_unroutable (request_with None false) initial None);
      [reflexivity | reflexivity | reflexivity | discriminate].
  - apply (proj1 post_rejects_unroutable (request_with (Some "1234") true) initial (Some "1234"));
      [reflexivity | reflexivity | intros [H|H]; discriminate H |].
    intros s [= <-]. split; reflexivity.
Defined.

Lemma substring_0 (k : nat) (s : string) :
  String.substring 0 k s = first_chars k s.
Proof.
  revert s. induction k as [|k IH]; intros [|c s]; cbn; try reflexivity.
  now rewrite IH.
Qed.

Lemma first_chars_min (n : nat) (s : string) :
  first_chars (Nat.min n (String.length s)) s = first_chars n s.
Proof.
  revert s. induction n as [|n IH]; intros [|c s]; cbn; try reflexivity.
  now rewrite IH.
Qed.

Lemma slice_0 (s : string) (n : nat) : slice s 0 n = first_chars n s.
Proof.
  unfold slice. cbn [Nat.min]. rewrite Nat.sub_0_r, substring_0.
  apply first_chars_min.
Qed.

(** C5, amended.  A DELETE whose session id is non-empty and registered goes
    to the registered transport.  Otherwise the reply is status 400 with the
    text "Invalid or missing session ID: " followed by the first 8
    characters of the id when a non-empty id was supplied that is not the
    name of a member inherited from [Object.prototype], and by "none" when
    no id, or an empty one, was supplied. *)
Theorem getDelete_replies (req : Mcp.Request) (m : Mcp.Middleware) (sid : option string) :
  Header.header (Some (Mcp.headers req)) "mcp-session-id" = Ok sid ->
  (forall (s : string) (l : Mcp.loc),
     sid = Some s -> s ≠ "" -> Mcp.transports m !! s = Some l ->
     Mcp.getDelete req m = Ok (Mcp.HandleRequest l None, m)) /\
  (forall s : string,
     sid = Some s -> s ≠ "" -> inherited s = false -> Mcp.transports m !! s = None ->
     Mcp.getDelete req m =
     Ok (Mcp.StatusSend 400 ("Invalid or missing session ID: " +:+ first_chars 8 s), m)) /\
  (sid = None \/ sid = Some "" ->
   Mcp.getDelete req m = Ok (Mcp.StatusSend 400 "Invalid or missing session ID: none", m)).
Proof.
  intros Hh. rewrite (getDelete_with_header _ _ _ Hh). split; [|split].
  - intros s l -> Hs Hl. rewrite (proj2 (truthy_Some s) Hs). cbn [to_string]. now rewrite Hl.
  - intros s -> Hs Hin Hl. rewrite (proj2 (truthy_Some s) Hs). cbn [to_string].
    now rewrite Hl, Hin, slice_0.
  - intros Hs. apply truthy_false in Hs. now rewrite Hs.
Qed.

(** Scenario C of the specification, and a DELETE without the header. *)
Lemma getDelete_replies_witness :
  getDelete (request_with (Some "1234") false) initial
    = Ok (StatusSend 400 "Invalid or missing session ID: 1234", initial) /\
  getDelete (request_with None false) initial
    = Ok (StatusSend 400 "Invalid or missing session ID: none", initial).
Proof.
  split.
  - apply (proj1 (proj2 (getDelete_replies (request_with (Some "1234") false) initial
                           (Some "1234") eq_refl)) "1234");
      [reflexivity | discriminate | reflexivity | reflexivity].
  - apply (proj2 (proj2 (getDelete_replies (request_with None false) initial None eq_refl))).
    now left.
Defined.

(** C5 as stated fails on an empty session header: an id was supplied, it
    is not registered, and the reply names "none" instead of the (empty)
    truncated id. *)
Lemma getDelete_empty_id_says_none :
  Header.header (Some (Mcp.headers (Mcp.request_with (Some "") false))) "mcp-session-id"
    = Ok (Some "") /\
  Mcp.transports Mcp.initial !! "" = None /\
  Mcp.getDelete (Mcp.request_with (Some "") false) Mcp.initial
    = Ok (Mcp.StatusSend 400 "Invalid or missing session ID: none", Mcp.initial) /\
  Mcp.getDelete (Mcp.request_with (Some "") false) Mcp.initial
    ≠ Ok (Mcp.StatusSend 400 ("Invalid or missing session ID: " +:+ first_chars 8 ""), Mcp.initial).
Proof.
  repeat split. discriminate.
Qed.

(** On the name of an inherited member a DELETE is not answered at all:
    the lookup finds the member and the call of its [handleRequest]
    throws. *)
Lemma getDelete_inherited_name_throws :
  getDelete (request_with (Some "constructor") false) initial = Throw TypeError /\
  getDelete (request_with (Some "__proto__") false) initial = Throw TypeError.
Proof. split; reflexivity. Qed.

(** *** The transport lifecycle *)

Lemma call_onclose_deletes (l : loc) (m : Middleware) (t : Transport) (id : string) :
  heap m !! l = Some t -> sessionId t = Some id -> no_empty_key m ->
  call_onclose (DeleteOwnEntry l) m = mkMiddleware (delete id (transports m)) (heap m).
Proof.
  intros Hl Hid Hm. cbn. rewrite Hl, Hid.
  destruct (truthy (Some id)) eqn:Ht; cbn.
  - reflexivity.
  - apply truthy_false in Ht as [[=]|[= ->]].
    rewrite delete_id by exact Hm. now destruct m.
Qed.

(** C2.  In both modes the transport [newTransport] returns carries a close
    callback, and invoking it in any later state in which the transport's
    session id is set deletes the registry entry under that id and changes
    nothing else: a registry get on the id returns none.  (The state is any
    the middleware reaches: one with no entry under the empty id.) *)
Theorem close_callback_removes_entry (sid : option string) (m : Mcp.Middleware) :
  exists (t1 : Mcp.Transport) (cb : Mcp.CloseCallback),
    Mcp.heap (snd (Mcp.newTransport sid m)) !! fst (Mcp.newTransport sid m) = Some t1 /\
    Mcp.onclose t1 = Some cb /\
    forall (m2 : Mcp.Middleware) (t : Mcp.Transport) (id : string),
      Mcp.heap m2 !! fst (Mcp.newTransport sid m) = Some t ->
      Mcp.sessionId t = Some id ->
      Mcp.no_empty_key m2 ->
      Mcp.call_onclose cb m2 = Mcp.mkMiddleware (delete id (Mcp.transports m2)) (Mcp.heap m2) /\
      Mcp.transports (Mcp.call_onclose cb m2) !! id = None.
Proof.
  destruct (newTransport_onclose sid m) as (t1 & Ht1 & Hcb).
  exists t1, (DeleteOwnEntry (fst (newTransport sid m))).
  split; [exact Ht1 | split; [exact Hcb|]].
  intros m2 t id Hl Hid Hm2.
  rewrite (call_onclose_deletes _ _ _ _ Hl Hid Hm2). cbn.
  split; [reflexivity | apply lookup_delete_eq].
Qed.

(** Register, then close: the explicit id is registered when [newTransport]
    returns, and absent once the close callback has run. *)
Lemma close_callback_removes_entry_witness :
  let m1 := snd (newTransport (Some sample_id) initial) in
  transports m1 !! sample_id = Some 0 /\
  exists cb : CloseCallback,
    (heap m1 !! 0 ≫= onclose) = Some cb /\
    transports (call_onclose cb m1) !! sample_id = None.
Proof.
  intros m1. split; [reflexivity|].
  destruct (close_callback_removes_entry (Some sample_id) initial) as (t1 & cb & Ht1 & Hcb & H).
  exists cb. split.
  - change (heap m1 !! 0 = Some t1) in Ht1. rewrite Ht1. exact Hcb.
  - apply (H m1 (explicit_transport sample_id 0) sample_id); reflexivity.
Defined.

(** The same for a generated id: once the callback has registered the
    transport under the id the SDK assigned to it, closing removes it. *)
Lemma generated_register_then_close (m : Middleware) (id : string) :
  no_empty_key m -> id ≠ "" ->
  let l := fst (newTransport None m) in
  let m1 := update l (set_sessionId (Some id)) (snd (newTransport None m)) in
  let m2 := call_onsessioninitialized (RegisterTransport l) id m1 in
  transports m2 !! id = Some l /\
  transports (call_onclose (DeleteOwnEntry l) m2) !! id = None.
Proof.
  intros Hm Hid. cbv zeta.
  rewrite (newTransport_generated None m eq_refl). cbn [fst snd].
  unfold update, call_onsessioninitialized, registry_put. cbn [heap transports].
  rewrite alter_snoc. split; [apply lookup_insert_eq|].
  erewrite call_onclose_deletes.
  - cbn [transports]. apply lookup_delete_eq.
  - cbn [heap]. apply lookup_snoc_new.
  - reflexivity.
  - unfold no_empty_key. cbn [transports]. now rewrite lookup_insert_ne.
Qed.

(** C3, amended.  With a non-empty explicit session id, [newTransport]
    allocates a transport with no id generator, sets its [sessionId] to that
    id, and has put it in the registry under that id when it returns.  With
    no explicit id, or an empty one, it leaves the registry as it was; the
    transport has an id generator and no session id yet, and the registry
    put is what its on-session-initialized callback does, under the id the
    callback is given. *)
Theorem newTransport_registration (m : Mcp.Middleware) :
  (forall s : string, s ≠ "" ->
     exists t : Mcp.Transport,
       Mcp.heap m !! fst (Mcp.newTransport (Some s) m) = None /\
       Mcp.heap (snd (Mcp.newTransport (Some s) m)) !! fst (Mcp.newTransport (Some s) m) = Some t /\
       Mcp.sessionIdGenerator t = None /\
       Mcp.onsessioninitialized t = None /\
       Mcp.sessionId t = Some s /\
       Mcp.transports (snd (Mcp.newTransport (Some s) m))
         = <[s := fst (Mcp.newTransport (Some s) m)]> (Mcp.transports m)) /\
  (forall sid : option string, sid = None \/ sid = Some "" ->
     Mcp.transports (snd (Mcp.newTransport sid m)) = Mcp.transports m /\
     exists (t : Mcp.Transport) (cb : Mcp.SessionInitializedCallback),
       Mcp.heap m !! fst (Mcp.newTransport sid m) = None /\
       Mcp.heap (snd (Mcp.newTransport sid m)) !! fst (Mcp.newTransport sid m) = Some t /\
       Mcp.sessionIdGenerator t = Some Mcp.RandomUUID /\
       Mcp.sessionId t = None /\
       Mcp.onsessioninitialized t = Some cb /\
       forall (id : string) (m2 : Mcp.Middleware),
         Mcp.transports (Mcp.call_onsessioninitialized cb id m2)
           = <[id := fst (Mcp.newTransport sid m)]> (Mcp.transports m2)).
Proof.
  split.
  - intros s Hs. rewrite (newTransport_explicit s m Hs). cbn [fst snd heap transports].
    exists (explicit_transport s (length (heap m))).
    split; [now apply lookup_ge_None_2|].
    split; [apply lookup_snoc_new|]. repeat split.
  - intros sid Hsid. apply truthy_false in Hsid.
    rewrite (newTransport_generated sid m Hsid). cbn [fst snd heap transports].
    split; [reflexivity|].
    exists (generated_transport (length (heap m))), (RegisterTransport (length (heap m))).
    split; [now apply lookup_ge_None_2|].
    split; [apply lookup_snoc_new|]. repeat split.
Qed.

Lemma newTransport_registration_witness :
  transports (snd (newTransport (Some sample_id) initial)) = {[ sample_id := 0 ]} /\
  transports (snd (newTransport None initial)) = ∅.
Proof.
  split.
  - destruct (proj1 (newTransport_registration initial) sample_id) as (t & _ & _ & _ & _ & _ & H).
    + discriminate.
    + exact H.
  - apply (proj2 (newTransport_registration initial) None). now left.
Defined.

(** C3 as stated fails on the empty string as explicit id: the transport
    has an id generator and no session id, and nothing is registered under
    the empty id. *)
Lemma newTransport_empty_id_not_registered :
  Mcp.newTransport (Some "") Mcp.initial
  = (0, Mcp.mkMiddleware ∅
          [Mcp.mkTransport None (Some Mcp.RandomUUID) (Some (Mcp.RegisterTransport 0))
             (Some (Mcp.DeleteOwnEntry 0)) true]) /\
  Mcp.transports (snd (Mcp.newTransport (Some "") Mcp.initial)) !! "" = None.
Proof.
  split; reflexivity.
Qed.

End McpFacts.

(** ** The game store *)

Section StoreFacts.
Import Store.

Lemma append_assoc (a b c : string) : (a +:+ b) +:+ c = a +:+ (b +:+ c).
Proof. induction a as [|x a IH]; [reflexivity | exact (f_equal (String x) IH)]. Qed.

(** Parsing undoes the escape of one character. *)
Lemma parse_chars_escape (c : ascii) (rest : string) :
  parse_chars (escape c +:+ rest) = prepend c (parse_chars rest).
Proof.
  destruct c as [[] [] [] [] [] [] [] []]; reflexivity.
Qed.

Lemma parse_chars_quote_chars (s rest : string) :
  parse_chars (quote_chars s +:+ String quote rest) = Ok (s, rest).
Proof.
  induction s as [|c s IH].
  - reflexivity.
  - cbn [quote_chars]. rewrite append_assoc, parse_chars_escape, IH. reflexivity.
Qed.

(** [JSON.parse(JSON.stringify(s)) === s] for every string. *)
Lemma JSON_parse_stringify (s : string) :
  JSON_parse (JSON_stringify s) = Ok s.
Proof.
  unfold JSON_parse, JSON_stringify.
  change (skip_whitespace (String quote ?x)) with (String quote x).
  cbn [Ascii.eqb quote ascii_of_nat].
  change (Ascii.eqb quote quote) with true. cbn match.
  rewrite parse_chars_quote_chars. reflexivity.
Qed.

Lemma files_saveGame `{ChessEngine} (sid : option string) (game : Chess) (fs : FileSystem) :
  files (saveGame sid game fs) = <[game_path sid := JSON_stringify (fen game)]> (files fs).
Proof.
  unfold saveGame. now destruct (negb (existsSync "./games" fs)).
Qed.

Lemma existsSync_saveGame `{ChessEngine} (sid : option string) (game : Chess) (fs : FileSystem) :
  existsSync (game_path sid) (saveGame sid game fs) = true.
Proof.
  unfold existsSync. rewrite files_saveGame, lookup_insert_eq.
  rewrite (bool_decide_eq_true_2 (is_Some (Some _))) by eauto.
  apply orb_true_r.
Qed.

Lemma readFile_saveGame `{ChessEngine} (sid : option string) (game : Chess) (fs : FileSystem) :
  readFile (game_path sid) (saveGame sid game fs) = Ok (JSON_stringify (fen game)).
Proof.
  unfold readFile. now rewrite files_saveGame, lookup_insert_eq.
Qed.

Lemma loadGame_saveGame `{ChessEngine} (sid : string) (game : Chess) (fs : FileSystem) :
  sid ≠ "" ->
  loadGame (Some sid) (saveGame (Some sid) game fs)
  = (g ← new_Chess (fen game); Ok (Some g)).
Proof.
  intros Hs. unfold loadGame.
  rewrite existsSync_saveGame, (proj2 (truthy_Some sid) Hs). cbn [negb orb].
  rewrite readFile_saveGame. cbn [mbind result_bind Js.bind].
  now rewrite JSON_parse_stringify.
Qed.

Lemma plain_name_nonempty (s : string) : Invariants.plain_name s = true -> s ≠ "".
Proof. intros H ->. discriminate H. Qed.

Lemma loadGame_falsy `{ChessEngine} (sid : option string) (fs : FileSystem) :
  truthy sid = false -> loadGame sid fs = Ok None.
Proof.
  intros Hs. unfold loadGame. rewrite Hs. now rewrite orb_true_r.
Qed.

(** C9, amended.  For every session id that is a plain file name, on a disk
    the store can write to, and for every game: loading after saving under
    the id is [new Chess(game.fen())], the position alone, without the
    moves played.  So, for every game whose FEN the engine accepts and
    reproduces, loading returns a game whose FEN equals [game.fen()].
    Loading with no session id returns none on every disk, also after a
    save with no session id. *)
Theorem loadGame_after_saveGame `{E : Store.ChessEngine} :
  (forall (sid : string) (game : Store.Chess) (fs : Store.FileSystem),
     Invariants.plain_name sid = true ->
     Invariants.usable_disk (Some sid) fs ->
     Store.loadGame (Some sid) (Store.saveGame (Some sid) game fs)
     = (g ← Store.new_Chess (Store.fen game); Ok (Some g))) /\
  (forall (sid : string) (game rebuilt : Store.Chess) (fs : Store.FileSystem),
     Invariants.plain_name sid = true ->
     Invariants.usable_disk (Some sid) fs ->
     Store.new_Chess (Store.fen game) = Ok rebuilt ->
     Store.fen rebuilt = Store.fen game ->
     exists loaded : Store.Chess,
       Store.loadGame (Some sid) (Store.saveGame (Some sid) game fs) = Ok (Some loaded) /\
       Store.fen loaded = Store.fen game) /\
  (forall fs : Store.FileSystem,
     Store.loadGame None fs = Ok None /\
     forall game : Store.Chess, Store.loadGame None (Store.saveGame None game fs) = Ok None).
Proof.
  split; [|split].
  - intros sid game fs Hs _. apply loadGame_saveGame, (plain_name_nonempty _ Hs).
  - intros sid game rebuilt fs Hs _ Hnew Hfen. exists rebuilt. split; [|exact Hfen].
    rewrite (loadGame_saveGame sid game fs (plain_name_nonempty _ Hs)). now rewrite Hnew.
  - intros fs. split; [|intros game]; now apply loadGame_falsy.
Qed.

(** A game with a history comes back as its position with no history. *)
Lemma loadGame_after_saveGame_witness :
  @loadGame with_history (Some Mcp.sample_id)
    (@saveGame with_history (Some Mcp.sample_id) (sample_position, ["e4"]) empty_disk)
  = Ok (Some (sample_position, [])) /\
  exists loaded : @Chess with_history,
    @loadGame with_history (Some Mcp.sample_id)
      (@saveGame with_history (Some Mcp.sample_id) (sample_position, ["e4"]) empty_disk)
    = Ok (Some loaded) /\
    @fen with_history loaded = sample_position.
Proof.
  assert (Invariants.usable_disk (Some Mcp.sample_id) empty_disk) as Hdisk.
  { split; [reflexivity|]. cbn. apply not_elem_of_empty. }
  split.
  - apply (proj1 (@loadGame_after_saveGame with_history)
             Mcp.sample_id (sample_position, ["e4"]) empty_disk);
      [reflexivity | exact Hdisk].
  - apply (proj1 (proj2 (@loadGame_after_saveGame with_history))
             Mcp.sample_id (sample_position, ["e4"]) (sample_position, []) empty_disk);
      [reflexivity | exact Hdisk | reflexivity | reflexivity].
Defined.

(** C9 as stated fails on the empty string, a session id that is not none:
    the save writes the file, and the load returns none.  And it fails on
    a game whose FEN the engine rejects, such as the empty board for an
    engine that requires the kings: the load throws. *)
Lemma loadGame_misses_saved_game :
  (Store.files
     (@Store.saveGame Store.position_only (Some "") Store.sample_position Store.empty_disk)
     !! "./games/.json" = Some (Store.JSON_stringify Store.sample_position) /\
   @Store.loadGame Store.position_only (Some "")
     (@Store.saveGame Store.position_only (Some "") Store.sample_position Store.empty_disk)
   = Ok None) /\
  @Store.loadGame Store.kings_required (Some Mcp.sample_id)
    (@Store.saveGame Store.kings_required (Some Mcp.sample_id) Store.empty_board
       Store.empty_disk)
  = Throw EngineError.
Proof.
  split; [split|]; reflexivity.
Qed.

End StoreFacts.

(** * Further properties *)

(** ** The router and the lifecycle, beyond the decision table *)

Section RouterFacts.
Import Header Uuid Mcp Invariants.

(** The four ways a [post] ends, with what decided each. *)
Lemma post_cases (req : Request) (m : Middleware) :
  exists sid : option string,
    header (Some (headers req)) "mcp-session-id" = Ok sid /\
    ((exists (s : string) (l : loc),
        sid = Some s /\ s ≠ "" /\ transports m !! s = Some l /\
        post req m = Ok (HandleRequest l (Some (body req)), m)) \/
     ((forall s, sid = Some s -> s ≠ "" -> transports m !! s = None) /\
      ((truthy sid = false /\ isInitializeRequest (body req) = true) \/
       validUUID sid = true) /\
      post req m = Ok (HandleRequest (fst (newTransport sid m)) (Some (body req)),
                       snd (newTransport sid m))) \/
     ((forall s, sid = Some s -> s ≠ "" -> transports m !! s = None) /\
      validUUID sid = false /\
      (truthy sid = false -> isInitializeRequest (body req) = false) /\
      post req m = Ok (StatusJson 404 no_valid_session, m)) \/
     post req m = Throw TypeError).
Proof.
  destruct (header (Some (headers req)) "mcp-session-id") as [sid|e] eqn:Hh;
    [|rewrite header_Some in Hh; discriminate].
  exists sid. split; [reflexivity|].
  rewrite (post_with_header _ _ _ Hh).
  destruct (truthy sid) eqn:Ht.
  - destruct sid as [s|]; [|discriminate]. cbn [to_string negb andb orb].
    pose proof (proj1 (truthy_Some s) Ht) as Hs.
    destruct (transports m !! s) as [l|] eqn:Hl.
    + left. exists s, l. auto.
    + right. destruct (inherited s); [now do 2 right|].
      destruct (validUUID (Some s)) eqn:Hv.
      * left. split; [now intros s' [= <-] | split; [now right | reflexivity]].
      * right. left. split; [now intros s' [= <-]|]. split; [reflexivity|].
        split; [discriminate | reflexivity].
  - right. assert (forall s, sid = Some s -> s ≠ "" -> transports m !! s = None) as Hfalsy.
    { intros s -> Hs. apply truthy_Some in Hs. congruence. }
    cbn [negb andb]. destruct (isInitializeRequest (body req)) eqn:Hi; cbn [orb].
    + left. auto.
    + assert (validUUID sid = false) as Hv.
      { destruct (validUUID sid) eqn:Hv; [|reflexivity].
        apply validUUID_truthy in Hv. congruence. }
      rewrite Hv. right. left. auto.
Qed.

(** X1.  A request is only ever handed to the transport registered under its own
    session id, with the state unchanged, or to a transport that did not
    exist before the request. *)
Theorem post_routes_to_own_session (req : Mcp.Request) (m m' : Mcp.Middleware)
    (l : Mcp.loc) (b : option Mcp.Body) :
  Mcp.post req m = Ok (Mcp.HandleRequest l b, m') ->
  b = Some (Mcp.body req) /\
  ((m' = m /\
    exists s : string,
      Header.header (Some (Mcp.headers req)) "mcp-session-id" = Ok (Some s) /\
      Mcp.transports m !! s = Some l) \/
   (Mcp.heap m !! l = None /\ is_Some (Mcp.heap m' !! l))).
Proof.
  intros H.
  destruct (post_cases req m) as (sid & Hh & [(s & l' & -> & Hs & Hl & Hp)|[(_ & _ & Hp)|[(_ & _ & _ & Hp)|Hp]]]);
    rewrite Hp in H; try discriminate; injection H as <- <- <-.
  - split; [reflexivity|]. left. split; [reflexivity|]. now exists s.
  - split; [reflexivity|]. right.
    destruct (newTransport_onclose sid m) as (t & Ht & _).
    split; [|now exists t].
    destruct (newTransport_cases sid m) as [(s & -> & Hs & ->)|[_ ->]]; cbn;
      now apply lookup_ge_None_2.
Qed.

Lemma post_routes_to_own_session_witness :
  transports (snd (newTransport (Some sample_id) initial)) !! sample_id = Some 0.
Proof.
  destruct (post_routes_to_own_session (request_with (Some sample_id) false)
              (snd (newTransport (Some sample_id) initial))
              (snd (newTransport (Some sample_id) initial)) 0
              (Some (mkBody false "{}")) eq_refl)
    as [_ [[_ (s & Hs & Hl)]|[Hnew _]]].
  - injection Hs as <-. exact Hl.
  - discriminate Hnew.
Defined.

(** X2.  [post] never removes or replaces a registered entry. *)
Theorem post_keeps_entries (req : Mcp.Request) (m m' : Mcp.Middleware) (reply : Mcp.Reply)
    (id : string) (l : Mcp.loc) :
  Mcp.post req m = Ok (reply, m') ->
  Mcp.transports m !! id = Some l ->
  Mcp.transports m' !! id = Some l.
Proof.
  intros H Hid.
  destruct (post_cases req m) as (sid & Hh & [(s & l' & -> & Hs & Hl & Hp)|[(Hun & _ & Hp)|[(_ & _ & _ & Hp)|Hp]]]);
    rewrite Hp in H; try discriminate H; injection H as <- <-; try exact Hid.
  destruct (newTransport_cases sid m) as [(s & -> & Hs & ->)|[_ ->]]; cbn; [|exact Hid].
  rewrite lookup_insert_ne; [exact Hid|].
  intros ->. rewrite (Hun id eq_refl Hs) in Hid. discriminate.
Qed.

Lemma post_keeps_entries_witness :
  let m := snd (newTransport (Some sample_id) initial) in
  transports (snd (newTransport None m)) !! sample_id = Some 0.
Proof.
  intros m.
  apply (post_keeps_entries (request_with None true) m (snd (newTransport None m))
           (HandleRequest 1 (Some (mkBody true "{}"))) sample_id 0); reflexivity.
Defined.

(** X3.  An id that [post] itself adds to the registry, before it hands the
    request over, is the request's own session id: it passes the validator
    and leads to the transport the request is handed to, which did not
    exist before.  A request that opens a session without an id adds no
    entry before the hand-over; the transport it is handed to carries the
    callback that registers this transport under whatever id the callback
    is later given, the generated one and not one of the request. *)
Theorem post_registers_only_valid_ids (req : Mcp.Request) (m m' : Mcp.Middleware)
    (reply : Mcp.Reply) :
  Mcp.post req m = Ok (reply, m') ->
  (forall (id : string) (l : Mcp.loc),
     Mcp.transports m !! id = None ->
     Mcp.transports m' !! id = Some l ->
     Uuid.validUUID (Some id) = true /\
     Header.header (Some (Mcp.headers req)) "mcp-session-id" = Ok (Some id) /\
     reply = Mcp.HandleRequest l (Some (Mcp.body req)) /\
     Mcp.heap m !! l = None /\
     (forall id' : string, id' ≠ id -> Mcp.transports m' !! id' = Mcp.transports m !! id')) /\
  (forall (sid : option string) (l : Mcp.loc) (b : option Mcp.Body),
     Header.header (Some (Mcp.headers req)) "mcp-session-id" = Ok sid ->
     truthy sid = false ->
     reply = Mcp.HandleRequest l b ->
     Mcp.transports m' = Mcp.transports m /\
     Mcp.heap m !! l = None /\
     Mcp.heap m' !! l = Some (Mcp.generated_transport l) /\
     (forall generated : string,
        Mcp.transports
          (Mcp.call_onsessioninitialized (Mcp.RegisterTransport l) generated m') !! generated
        = Some l)).
Proof.
  intros H.
  destruct (post_cases req m) as (sid & Hh & [(s & l' & -> & Hs & Hl & Hp)|[(Hun & Hwhy & Hp)|[(_ & _ & _ & Hp)|Hp]]]);
    rewrite Hp in H; try discriminate H; injection H as <- <-.
  - split; [intros; congruence|].
    intros sid l b Hh' Hf. rewrite Hh in Hh'. injection Hh' as <-.
    apply truthy_Some in Hs. congruence.
  - split.
    + intros id l Hold Hnew.
      destruct (newTransport_cases sid m) as [(s & -> & Hs & Hnt)|[_ Hnt]];
        rewrite Hnt in Hnew |- *; cbn in Hnew |- *; [|congruence].
      rewrite lookup_insert in Hnew. case_decide as Hcase; [|congruence].
      subst id. injection Hnew as <-.
      destruct Hwhy as [[Hfalsy _]|Hv].
      { apply truthy_Some in Hs. congruence. }
      repeat split; try assumption.
      * now apply lookup_ge_None_2.
      * intros id' Hne. now rewrite lookup_insert_ne.
    + intros sid' l b Hh' Hf [= <- <-]. rewrite Hh in Hh'. injection Hh' as <-.
      rewrite (newTransport_generated sid m Hf). cbn [fst snd transports heap].
      split; [reflexivity|]. split; [now apply lookup_ge_None_2|].
      split; [apply list_lookup_middle; reflexivity|].
      intros generated. cbn. apply lookup_insert_eq.
  - split; [intros; congruence | intros sid' l b _ _ [=]].
Qed.

Lemma post_registers_only_valid_ids_witness :
  (validUUID (Some sample_id) = true /\
   header (Some (headers (request_with (Some sample_id) false))) "mcp-session-id"
     = Ok (Some sample_id)) /\
  transports (snd (newTransport None initial)) = transports initial.
Proof.
  split.
  - destruct (proj1 (post_registers_only_valid_ids (request_with (Some sample_id) false)
                       initial (snd (newTransport (Some sample_id) initial))
                       (HandleRequest 0 (Some (mkBody false "{}"))) eq_refl)
                sample_id 0 eq_refl eq_refl) as (Hv & Hh & _).
    split; assumption.
  - apply (proj2 (post_registers_only_valid_ids (request_with None true)
                    initial (snd (newTransport None initial))
                    (HandleRequest 0 (Some (mkBody true "{}"))) eq_refl)
             None 0 (Some (mkBody true "{}"))); reflexivity.
Defined.

Lemma getDelete_cases (req : Request) (m : Middleware) :
  exists sid : option string,
    header (Some (headers req)) "mcp-session-id" = Ok sid /\
    ((exists (s : string) (l : loc),
        sid = Some s /\ s ≠ "" /\ transports m !! s = Some l /\
        getDelete req m = Ok (HandleRequest l None, m)) \/
     (exists s : string,
        sid = Some s /\ s ≠ "" /\ transports m !! s = None /\
        getDelete req m =
        Ok (StatusSend 400 ("Invalid or missing session ID: " +:+ first_chars 8 s), m)) \/
     (truthy sid = false /\
      getDelete req m = Ok (StatusSend 400 "Invalid or missing session ID: none", m)) \/
     getDelete req m = Throw TypeError).
Proof.
  destruct (header (Some (headers req)) "mcp-session-id") as [sid|e] eqn:Hh;
    [|rewrite header_Some in Hh; discriminate].
  exists sid. split; [reflexivity|].
  rewrite (getDelete_with_header _ _ _ Hh).
  destruct (truthy sid) eqn:Ht.
  - destruct sid as [s|]; [|discriminate]. cbn [to_string andb].
    pose proof (proj1 (truthy_Some s) Ht) as Hs.
    destruct (transports m !! s) as [l|] eqn:Hl.
    + left. exists s, l. auto.
    + right. destruct (inherited s); [now do 2 right|].
      left. exists s. rewrite slice_0. auto.
  - right. right. left. auto.
Qed.

(** X4.  Up to its answer or hand-over a DELETE writes nothing: the
    registry and the transports are then as they were.  It is handed over,
    with no body, only to the transport registered under the request's own
    non-empty id, and it creates no transport, also for a well-formed
    unregistered id: every answer of its own has status 400.  (The entry is
    removed by the close callback, once the teardown makes the transport
    run it.) *)
Theorem getDelete_writes_nothing (req : Mcp.Request) (m m' : Mcp.Middleware)
    (reply : Mcp.Reply) :
  Mcp.getDelete req m = Ok (reply, m') ->
  m' = m /\
  match reply with
  | Mcp.HandleRequest l b =>
      b = None /\
      exists s : string,
        Header.header (Some (Mcp.headers req)) "mcp-session-id" = Ok (Some s) /\
        s ≠ "" /\ Mcp.transports m !! s = Some l
  | Mcp.StatusSend status _ => status = 400
  | Mcp.StatusJson _ _ => False
  end.
Proof.
  intros H.
  destruct (getDelete_cases req m)
    as (sid & Hh & [(s & l & -> & Hs & Hl & Hp)|[(s & -> & Hs & Hl & Hp)|[(Hs & Hp)|Hp]]]);
    rewrite Hp in H; try discriminate H; injection H as <- <-;
    (split; [reflexivity|]); cbn; eauto.
Qed.

Lemma getDelete_writes_nothing_witness :
  let m := snd (newTransport (Some sample_id) initial) in
  m = m /\
  @None Body = None /\
  exists s : string,
    header (Some (headers (request_with (Some sample_id) false))) "mcp-session-id"
      = Ok (Some s) /\
    s ≠ "" /\ transports m !! s = Some 0.
Proof.
  intros m.
  apply (getDelete_writes_nothing (request_with (Some sample_id) false) m m
           (HandleRequest 0 None)).
  reflexivity.
Defined.

Lemma first_chars_length (n : nat) (s : string) :
  String.length (first_chars n s) <= n.
Proof.
  revert s. induction n as [|n IH]; intros [|c s]; cbn; try lia.
  specialize (IH s). lia.
Qed.

Lemma first_chars_prefix (n : nat) (s : string) :
  exists rest : string, s = first_chars n s +:+ rest.
Proof.
  revert s. induction n as [|n IH]; intros [|c s]; cbn; eauto.
  destruct (IH s) as [rest Hrest]. exists rest.
  exact (f_equal (String c) Hrest).
Qed.

(** X5.  The text of a 400 reply repeats at most 8 characters of what the client
    sent: it is the fixed prefix followed by "none" or by a prefix, of
    length at most 8, of the request's session id. *)
Theorem getDelete_echo_bounded (req : Mcp.Request) (m m' : Mcp.Middleware)
    (status : nat) (text : string) :
  Mcp.getDelete req m = Ok (Mcp.StatusSend status text, m') ->
  exists shown : string,
    text = "Invalid or missing session ID: " +:+ shown /\
    String.length shown <= 8 /\
    (shown = "none" \/
     exists s rest : string,
       Header.header (Some (Mcp.headers req)) "mcp-session-id" = Ok (Some s) /\
       s = shown +:+ rest).
Proof.
  intros H.
  destruct (getDelete_cases req m)
    as (sid & Hh & [(s & l & -> & Hs & Hl & Hp)|[(s & -> & Hs & Hl & Hp)|[(Hs & Hp)|Hp]]]);
    rewrite Hp in H; [discriminate| | |discriminate]; injection H as <- <- <-.
  - exists (first_chars 8 s). split; [reflexivity|].
    split; [apply first_chars_length|]. right.
    destruct (first_chars_prefix 8 s) as [rest Hrest]. now exists s, rest.
  - exists "none". split; [reflexivity|]. split; [cbn; lia | now left].
Qed.

Lemma getDelete_echo_bounded_witness :
  exists shown : string,
    "Invalid or missing session ID: 123e4567" = "Invalid or missing session ID: " +:+ shown /\
    String.length shown <= 8 /\
    (shown = "none" \/
     exists s rest : string,
       header (Some (headers (request_with (Some sample_id) false))) "mcp-session-id"
         = Ok (Some s) /\
       s = shown +:+ rest).
Proof.
  apply (getDelete_echo_bounded (request_with (Some sample_id) false) initial initial 400).
  reflexivity.
Defined.

(** X6.  Opening a session with a well-formed, unregistered id and then using
    it: the first request creates the transport and registers it, and from
    the state so reached a POST, GET or DELETE carrying the id is handed to
    that same transport, a POST or GET with the registry and the transports
    as they are at the hand-over.  (What the transport does with a request
    handed to it, such as running its close callback on a DELETE, comes
    after, as a [call_onclose] step.) *)
Theorem session_opened_then_resumed (req1 req2 : Mcp.Request) (m : Mcp.Middleware)
    (s : string) :
  Header.header (Some (Mcp.headers req1)) "mcp-session-id" = Ok (Some s) ->
  Header.header (Some (Mcp.headers req2)) "mcp-session-id" = Ok (Some s) ->
  Uuid.validUUID (Some s) = true ->
  Mcp.transports m !! s = None ->
  exists (l : Mcp.loc) (m1 : Mcp.Middleware),
    Mcp.heap m !! l = None /\
    Mcp.post req1 m = Ok (Mcp.HandleRequest l (Some (Mcp.body req1)), m1) /\
    Mcp.transports m1 !! s = Some l /\
    Mcp.post req2 m1 = Ok (Mcp.HandleRequest l (Some (Mcp.body req2)), m1) /\
    exists m2 : Mcp.Middleware,
      Mcp.getDelete req2 m1 = Ok (Mcp.HandleRequest l None, m2).
Proof.
  intros H1 H2 Hv Hun.
  pose proof (validUUID_truthy _ Hv) as Ht.
  pose proof (proj1 (truthy_Some s) Ht) as Hs.
  exists (fst (newTransport (Some s) m)), (snd (newTransport (Some s) m)).
  rewrite (post_with_header _ _ _ H1), (post_with_header _ _ _ H2),
    (getDelete_with_header _ _ _ H2), Ht, Hv.
  cbn [to_string andb]. rewrite Hun, (validUUID_not_inherited _ Hv), orb_true_r.
  rewrite (newTransport_explicit s m Hs). cbn [fst snd transports].
  rewrite lookup_insert_eq.
  split; [now apply lookup_ge_None_2 | eauto 6].
Qed.

Lemma session_opened_then_resumed_witness :
  exists (l : loc) (m1 : Middleware),
    heap initial !! l = None /\
    post (request_with (Some sample_id) true) initial
      = Ok (HandleRequest l (Some (mkBody true "{}")), m1) /\
    transports m1 !! sample_id = Some l /\
    post (request_with (Some sample_id) false) m1
      = Ok (HandleRequest l (Some (mkBody false "{}")), m1) /\
    exists m2 : Middleware,
      getDelete (request_with (Some sample_id) false) m1 = Ok (HandleRequest l None, m2).
Proof.
  apply (session_opened_then_resumed (request_with (Some sample_id) true)
           (request_with (Some sample_id) false) initial sample_id); reflexivity.
Defined.

(** X7.  Once the close callback of the transport registered under an id has
    run, the id is no longer resumed: a DELETE with it is answered 400, and
    a POST or GET with it (the id being well-formed) is handed to a new
    transport, registered under the id in place of the closed one. *)
Theorem closed_session_not_resumed (req : Mcp.Request) (m : Mcp.Middleware)
    (s : string) (l : Mcp.loc) (t : Mcp.Transport) :
  Header.header (Some (Mcp.headers req)) "mcp-session-id" = Ok (Some s) ->
  Uuid.validUUID (Some s) = true ->
  Mcp.transports m !! s = Some l ->
  Mcp.heap m !! l = Some t ->
  Mcp.sessionId t = Some s ->
  let m' := Mcp.call_onclose (Mcp.DeleteOwnEntry l) m in
  Mcp.getDelete req m'
    = Ok (Mcp.StatusSend 400 ("Invalid or missing session ID: " +:+ first_chars 8 s), m') /\
  exists (l' : Mcp.loc) (m2 : Mcp.Middleware),
    l' ≠ l /\
    Mcp.post req m' = Ok (Mcp.HandleRequest l' (Some (Mcp.body req)), m2) /\
    Mcp.transports m2 !! s = Some l'.
Proof.
  intros Hh Hv Hl Ht Hsid m'.
  pose proof (validUUID_truthy _ Hv) as Htr.
  pose proof (proj1 (truthy_Some s) Htr) as Hs.
  assert (m' = mkMiddleware (delete s (transports m)) (heap m)) as Hm'.
  { unfold m'. cbn. now rewrite Ht, Hsid, Htr. }
  clearbody m'. subst m'.
  rewrite (getDelete_with_header _ _ _ Hh), (post_with_header _ _ _ Hh), Htr, Hv.
  cbn [to_string transports andb].
  rewrite lookup_delete_eq, (validUUID_not_inherited _ Hv), slice_0, orb_true_r.
  split; [reflexivity|].
  rewrite (newTransport_explicit s _ Hs). cbn [fst snd transports heap].
  eexists _, _. split; [|split; [reflexivity | apply lookup_insert_eq]].
  apply lookup_lt_Some in Ht. lia.
Qed.

Lemma closed_session_not_resumed_witness :
  let m := snd (newTransport (Some sample_id) initial) in
  let m' := call_onclose (DeleteOwnEntry 0) m in
  getDelete (request_with (Some sample_id) false) m'
    = Ok (StatusSend 400 "Invalid or missing session ID: 123e4567", m') /\
  exists (l' : loc) (m2 : Middleware),
    l' ≠ 0 /\
    post (request_with (Some sample_id) false) m'
      = Ok (HandleRequest l' (Some (mkBody false "{}")), m2) /\
    transports m2 !! sample_id = Some l'.
Proof.
  intros m m'.
  apply (closed_session_not_resumed (request_with (Some sample_id) false) m sample_id 0
           (explicit_transport sample_id 0)); reflexivity.
Defined.

End RouterFacts.

(** ** What every operation of the middleware keeps *)

Section LifecycleFacts.
Import Header Uuid Mcp Invariants.

Lemma newTransport_heap (sid : option string) (m : Middleware) :
  exists t : Transport,
    heap (snd (newTransport sid m)) = heap m ++ [t] /\
    fst (newTransport sid m) = length (heap m) /\
    connected t = true /\
    onclose t = Some (DeleteOwnEntry (length (heap m))) /\
    (forall cb, onsessioninitialized t = Some cb -> cb = RegisterTransport (length (heap m))).
Proof.
  destruct (newTransport_cases sid m) as [(s & -> & Hs & ->)|[_ ->]]; cbn;
    eexists; (split; [reflexivity|]); cbn; repeat split; try discriminate.
  now intros cb [= <-].
Qed.

Lemma step_heap (m m' : Middleware) :
  step m m' ->
  heap m' = heap m \/ exists sid, m' = snd (newTransport sid m).
Proof.
  intros [req reply m1 H|req reply m1 H|l t id Hl Hcb Hid Hne|l t cb Hl Hcb].
  - apply post_state in H as [->|[sid ->]]; eauto.
  - apply getDelete_state in H as ->. now left.
  - now left.
  - left. apply call_onclose_state.
Qed.

(** X8.  The middleware never changes or drops a transport it has created: an
    operation leaves the heap as it is or adds one transport at its end. *)
Theorem step_keeps_transports (m m' : Mcp.Middleware) :
  Mcp.step m m' ->
  (Mcp.heap m' = Mcp.heap m \/ exists t : Mcp.Transport, Mcp.heap m' = Mcp.heap m ++ [t]) /\
  (forall (l : Mcp.loc) (t : Mcp.Transport),
     Mcp.heap m !! l = Some t -> Mcp.heap m' !! l = Some t).
Proof.
  intros Hstep.
  assert (heap m' = heap m \/ exists t, heap m' = heap m ++ [t]) as H.
  { destruct (step_heap _ _ Hstep) as [H|[sid ->]]; [now left | right].
    destruct (newTransport_heap sid m) as (t & Ht & _). now exists t. }
  split; [exact H|].
  intros l t Hl. destruct H as [->|[t' ->]]; [exact Hl|].
  rewrite lookup_app_l; [exact Hl | eapply lookup_lt_Some, Hl].
Qed.

Lemma step_keeps_transports_witness :
  heap (snd (newTransport None (snd (newTransport (Some sample_id) initial)))) !! 0
  = Some (explicit_transport sample_id 0).
Proof.
  refine (proj2 (step_keeps_transports (snd (newTransport (Some sample_id) initial))
                   (snd (newTransport None (snd (newTransport (Some sample_id) initial)))) _)
            0 _ _).
  - apply (step_post _ (request_with None true)
             (HandleRequest 1 (Some (mkBody true "{}")))). reflexivity.
  - reflexivity.
Defined.

(** X9.  From the empty middleware on, every transport in the heap is connected
    and carries the close callback over itself, and an on-session-initialized
    callback, where there is one, registers the transport it is installed
    on. *)
Theorem transports_stay_wired :
  Invariants.transports_wired Mcp.initial /\
  (forall m m' : Mcp.Middleware,
     Mcp.step m m' -> Invariants.transports_wired m -> Invariants.transports_wired m').
Proof.
  split.
  - intros l t H. cbn in H. now rewrite lookup_nil in H.
  - intros m m' Hstep Hm l t Hl.
    destruct (step_heap _ _ Hstep) as [H|[sid ->]].
    + rewrite H in Hl. now apply Hm.
    + destruct (newTransport_heap sid m) as (t' & Ht' & _ & Hwired).
      rewrite Ht' in Hl. apply lookup_snoc_Some in Hl as [[_ Hl]|[-> <-]].
      * now apply Hm.
      * exact Hwired.
Qed.

Lemma transports_stay_wired_witness :
  transports_wired (snd (newTransport (Some sample_id) initial)).
Proof.
  apply (proj2 transports_stay_wired initial).
  - apply (step_post _ (request_with (Some sample_id) false)
             (HandleRequest 0 (Some (mkBody false "{}")))). reflexivity.
  - apply (proj1 transports_stay_wired).
Defined.

(** X10.  The registry never holds an entry under the empty id: there is none at
    the start, and no request and no callback adds one. *)
Theorem registry_never_holds_empty_id :
  Mcp.no_empty_key Mcp.initial /\
  (forall m m' : Mcp.Middleware,
     Mcp.step m m' -> Mcp.no_empty_key m -> Mcp.no_empty_key m').
Proof.
  split; [exact no_empty_key_initial | exact no_empty_key_step].
Qed.

Lemma registry_never_holds_empty_id_witness :
  no_empty_key (snd (newTransport None initial)).
Proof.
  apply (proj2 registry_never_holds_empty_id initial).
  - apply (step_post _ (request_with (Some "") true)
             (HandleRequest 0 (Some (mkBody true "{}")))). reflexivity.
  - apply (proj1 registry_never_holds_empty_id).
Defined.

End LifecycleFacts.

(** ** The validator, by positions and up to letter case *)

Section ValidatorFacts.
Import Uuid Invariants.

Lemma get_list_ascii (s : string) (i : nat) :
  String.get i s = list_ascii_of_string s !! i.
Proof.
  revert i. induction s as [|c s IH]; intros [|i]; cbn; auto.
Qed.

Ltac split_list l n :=
  lazymatch n with
  | 0 => idtac
  | S ?n' => destruct l as [|? l]; [|split_list l n']
  end.

Lemma strip_uuid_placed (l : list ascii) :
  strip_uuid l = Some [] ->
  length l = 36 /\ forall (i : nat) (c : ascii), l !! i = Some c -> uuid_char_ok i c = true.
Proof.
  unfold strip_uuid. intros H.
  split_list l 37; cbn in H;
    repeat match type of H with
           | context [if ?b then _ else _] => destruct b eqn:?; cbn in H
           end;
    try discriminate H.
  split; [reflexivity|].
  intros i c Hi.
  do 36 (destruct i as [|i]; [injection Hi as <-; assumption|]).
  discriminate Hi.
Qed.

Ltac index_facts H n :=
  lazymatch n with
  | 0 => idtac
  | S ?n' =>
      let F := fresh "F" in
      pose proof (H n' _ eq_refl) as F;
      unfold uuid_char_ok in F; cbn [Nat.eqb orb] in F;
      try (apply Ascii.eqb_eq in F; subst);
      index_facts H n'
  end.

Lemma placed_strip_uuid (l : list ascii) :
  length l = 36 ->
  (forall (i : nat) (c : ascii), l !! i = Some c -> uuid_char_ok i c = true) ->
  strip_uuid l = Some [].
Proof.
  intros Hlen H.
  split_list l 37; try discriminate Hlen.
  index_facts H 36.
  unfold strip_uuid.
  repeat first
    [ match goal with
      | F : is_hex_digit _ = true |- _ => rewrite F; clear F
      end
    | progress cbn [strip_hex strip_hyphen mbind option_bind hyphen Ascii.eqb Bool.eqb] ].
  reflexivity.
Qed.

(** X11.  [validUUID] by positions: a string passes exactly when it has 36
    characters, hyphens at offsets 8, 13, 18 and 23, and a hexadecimal
    digit, of either case, at every other offset. *)
Theorem validUUID_by_position (s : string) :
  Uuid.validUUID (Some s) = true <-> Invariants.well_placed s.
Proof.
  unfold well_placed. rewrite <- length_list_ascii_of_string.
  setoid_rewrite get_list_ascii.
  unfold validUUID, test_anchored. cbn [truthy to_string].
  rewrite matches_uuid_pattern. split.
  - destruct (negb (negb (String.eqb s ""))); [discriminate|].
    destruct (strip_uuid (list_ascii_of_string s)) as [[|c rest]|] eqn:E; cbn; try discriminate.
    intros _. now apply strip_uuid_placed.
  - intros [Hlen H]. rewrite (placed_strip_uuid _ Hlen H).
    destruct s; [discriminate Hlen | reflexivity].
Qed.

Lemma validUUID_by_position_witness :
  String.length Mcp.sample_id = 36 /\ String.get 8 Mcp.sample_id = Some hyphen.
Proof.
  destruct (proj1 (validUUID_by_position Mcp.sample_id) eq_refl) as [Hlen H].
  split; [exact Hlen|].
  specialize (H 8 "-"%char eq_refl). reflexivity.
Defined.

Lemma uuid_char_is_name_char (i : nat) (c : ascii) :
  uuid_char_ok i c = true -> is_name_char c = true.
Proof.
  unfold uuid_char_ok.
  destruct ((i =? 8) || (i =? 13) || (i =? 18) || (i =? 23));
    destruct c as [[] [] [] [] [] [] [] []]; intros H;
    try reflexivity; vm_compute in H; discriminate H.
Qed.

(** Every id the validator accepts is a plain file name. *)
Lemma validUUID_plain_name (s : string) :
  validUUID (Some s) = true -> plain_name s = true.
Proof.
  intros Hv. pose proof (validUUID_truthy _ Hv) as Ht.
  unfold validUUID, test_anchored in Hv. cbn [truthy to_string] in Hv.
  rewrite matches_uuid_pattern in Hv.
  destruct (negb (negb (String.eqb s ""))); [discriminate Hv|].
  destruct (strip_uuid (list_ascii_of_string s)) as [[|c rest]|] eqn:E;
    cbn in Hv; try discriminate Hv.
  apply strip_uuid_placed in E as [Hlen H].
  unfold plain_name. rewrite <- length_list_ascii_of_string, Hlen.
  cbn [truthy] in Ht. rewrite Ht, andb_true_r. cbn [andb].
  apply forallb_forall. intros x Hx.
  apply list_elem_of_In, list_elem_of_lookup_1 in Hx as [i Hi].
  exact (uuid_char_is_name_char i x (H i x Hi)).
Qed.

Lemma is_hex_digit_to_upper (c : ascii) :
  is_hex_digit (to_upper c) = is_hex_digit c.
Proof. destruct c as [[] [] [] [] [] [] [] []]; reflexivity. Qed.

Lemma is_hyphen_to_upper (c : ascii) :
  Ascii.eqb (to_upper c) hyphen = Ascii.eqb c hyphen.
Proof. destruct c as [[] [] [] [] [] [] [] []]; reflexivity. Qed.

Lemma strip_hex_upper (n : nat) (l : list ascii) :
  strip_hex n (map to_upper l) = map to_upper <$> strip_hex n l.
Proof.
  revert l. induction n as [|n IH]; intros [|c l]; cbn [strip_hex map]; try reflexivity.
  rewrite is_hex_digit_to_upper. destruct (is_hex_digit c); [apply IH | reflexivity].
Qed.

Lemma strip_hyphen_upper (l : list ascii) :
  strip_hyphen (map to_upper l) = map to_upper <$> strip_hyphen l.
Proof.
  destruct l as [|c l]; cbn [strip_hyphen map]; [reflexivity|].
  rewrite is_hyphen_to_upper. now destruct (Ascii.eqb c hyphen).
Qed.

Lemma bind_upper (f g : list ascii -> option (list ascii)) (o : option (list ascii)) :
  (forall l, f (map to_upper l) = map to_upper <$> g l) ->
  (map to_upper <$> o) ≫= f = map to_upper <$> (o ≫= g).
Proof. intros H. destruct o as [l|]; cbn; [apply H | reflexivity]. Qed.

Lemma strip_uuid_upper (l : list ascii) :
  strip_uuid (map to_upper l) = map to_upper <$> strip_uuid l.
Proof.
  unfold strip_uuid.
  rewrite strip_hex_upper.
  repeat (apply bind_upper; intros;
          first [rewrite strip_hex_upper | rewrite strip_hyphen_upper]).
  reflexivity.
Qed.

Lemma list_ascii_uppercase (s : string) :
  list_ascii_of_string (uppercase s) = map to_upper (list_ascii_of_string s).
Proof. induction s as [|c s IH]; cbn; [reflexivity | now rewrite IH]. Qed.

Lemma validUUID_uppercase (s : string) :
  validUUID (Some (uppercase s)) = validUUID (Some s).
Proof.
  unfold validUUID, test_anchored. cbn [truthy to_string].
  rewrite !matches_uuid_pattern, list_ascii_uppercase, strip_uuid_upper.
  destruct s as [|c s]; [reflexivity|]. cbn [uppercase String.eqb negb].
  now destruct (strip_uuid _) as [[|d rest]|].
Qed.

(** X12.  The validator does not look at letter case: two strings that differ
    only in the case of ASCII letters are both accepted or both rejected. *)
Theorem validUUID_ignores_case (s1 s2 : string) :
  Invariants.uppercase s1 = Invariants.uppercase s2 ->
  Uuid.validUUID (Some s1) = Uuid.validUUID (Some s2).
Proof.
  intros H. now rewrite <- (validUUID_uppercase s1), H, validUUID_uppercase.
Qed.

Lemma validUUID_ignores_case_witness :
  validUUID (Some "123E4567-E89B-12D3-A456-426614174000") = validUUID (Some Mcp.sample_id).
Proof.
  apply validUUID_ignores_case. reflexivity.
Defined.

End ValidatorFacts.

(** ** The store, beyond one save and one load *)

Section StoreMoreFacts.
Import Store Invariants.

Lemma string_length_append (a b : string) :
  String.length (a +:+ b) = String.length a + String.length b.
Proof.
  induction a as [|c a IH]; [reflexivity | exact (f_equal S IH)].
Qed.

Lemma append_inj_r (a b c : string) : a +:+ c = b +:+ c -> a = b.
Proof.
  intros H.
  assert (String.length a = String.length b) as Hlen.
  { apply (f_equal String.length) in H. rewrite !string_length_append in H. lia. }
  revert b H Hlen. induction a as [|x a IH]; intros [|y b] H Hlen; try discriminate Hlen.
  - reflexivity.
  - cbn [String.append] in H. injection H as -> H.
    f_equal. apply IH; [exact H | now injection Hlen].
Qed.

Lemma game_path_inj (sid1 sid2 : option string) :
  game_path sid1 = game_path sid2 -> to_string sid1 = to_string sid2.
Proof.
  unfold game_path. intros H.
  apply (String.app_inj "./games/") in H.
  now apply append_inj_r in H.
Qed.

Lemma game_path_not_games (sid : option string) : game_path sid ≠ "./games".
Proof. unfold game_path. cbn. discriminate. Qed.

Lemma directories_saveGame `{ChessEngine} (sid : option string) (game : Chess) (fs : FileSystem) :
  directories (saveGame sid game fs)
  = if existsSync "./games" fs then directories fs else {[ "./games" ]} ∪ directories fs.
Proof.
  unfold saveGame. now destruct (existsSync "./games" fs).
Qed.

Lemma existsSync_games_saveGame `{ChessEngine} (sid : option string) (game : Chess)
    (fs : FileSystem) :
  existsSync "./games" (saveGame sid game fs) = true.
Proof.
  unfold existsSync at 1. rewrite directories_saveGame, files_saveGame.
  rewrite lookup_insert_ne by apply game_path_not_games.
  destruct (existsSync "./games" fs) eqn:E; [exact E|].
  rewrite bool_decide_eq_true_2 by set_solver. reflexivity.
Qed.

Lemma existsSync_other_saveGame `{ChessEngine} (sid sid' : option string) (game : Chess)
    (fs : FileSystem) :
  to_string sid ≠ to_string sid' ->
  existsSync (game_path sid') (saveGame sid game fs) = existsSync (game_path sid') fs.
Proof.
  intros Hne. unfold existsSync. rewrite directories_saveGame, files_saveGame.
  rewrite lookup_insert_ne by (intros E; apply Hne, game_path_inj, E).
  f_equal. destruct (existsSync "./games" fs); [reflexivity|].
  apply bool_decide_ext. rewrite elem_of_union, elem_of_singleton.
  pose proof (game_path_not_games sid'). tauto.
Qed.

Lemma uppercase_neq (s s' : string) : uppercase s ≠ uppercase s' -> s ≠ s'.
Proof. intros H ->. now apply H. Qed.

(** X14.  Saving under one id does not change what loading under another id
    returns, for two ids that are plain file names and differ by more than
    letter case (so that their files differ also where file names are
    compared without regard to case), on a disk the store can write to. *)
Theorem saveGame_leaves_other_sessions `{E : Store.ChessEngine}
    (s s' : string) (game : Store.Chess) (fs : Store.FileSystem) :
  Invariants.plain_name s = true ->
  Invariants.plain_name s' = true ->
  Invariants.uppercase s ≠ Invariants.uppercase s' ->
  Invariants.usable_disk (Some s) fs ->
  Store.loadGame (Some s') (Store.saveGame (Some s) game fs) = Store.loadGame (Some s') fs.
Proof.
  intros _ _ Hcase _. apply uppercase_neq in Hcase.
  assert (to_string (Some s) ≠ to_string (Some s')) as Hne by exact Hcase.
  unfold loadGame, readFile.
  rewrite (existsSync_other_saveGame _ _ _ _ Hne), files_saveGame.
  now rewrite lookup_insert_ne by (intros E'; apply Hne, game_path_inj, E').
Qed.

Lemma saveGame_leaves_other_sessions_witness :
  @loadGame position_only (Some "a")
    (@saveGame position_only (Some "b") sample_position
       (@saveGame position_only (Some "a") empty_board empty_disk))
  = Ok (Some empty_board).
Proof.
  rewrite (@saveGame_leaves_other_sessions position_only "b" "a").
  - reflexivity.
  - reflexivity.
  - reflexivity.
  - discriminate.
  - split; [reflexivity|]. rewrite directories_saveGame.
    change (existsSync "./games" empty_disk) with false. cbn [directories empty_disk].
    rewrite elem_of_union, elem_of_singleton, elem_of_empty. intros [Heq|[]].
    discriminate Heq.
Defined.


(** X16.  Saving twice under one id is saving the second game once: the first
    game leaves no trace on the disk. *)
Theorem saveGame_overwrites `{E : Store.ChessEngine}
    (sid : option string) (game1 game2 : Store.Chess) (fs : Store.FileSystem) :
  Store.saveGame sid game2 (Store.saveGame sid game1 fs) = Store.saveGame sid game2 fs.
Proof.
  assert (forall fs1 fs2 : FileSystem,
            directories fs1 = directories fs2 -> files fs1 = files fs2 -> fs1 = fs2) as Heq.
  { intros [d1 f1] [d2 f2]; cbn; congruence. }
  apply Heq.
  - rewrite !directories_saveGame, existsSync_games_saveGame. reflexivity.
  - rewrite !files_saveGame. apply insert_insert_eq.
Qed.

(** X17.  What [saveGame] leaves on the disk under the session's path is the
    stringified FEN, for every game and every session id that is a plain
    file name, and also for the absent id (printed [undefined]) and the
    empty one, on a disk the store can write to; parsing a stringified
    string gives the string back, whatever its characters; and the
    directory [./games] exists afterwards. *)
Theorem saveGame_writes_parsable_fen `{E : Store.ChessEngine}
    (sid : option string) (game : Store.Chess) (fs : Store.FileSystem) :
  to_string sid = "" \/ Invariants.plain_name (to_string sid) = true ->
  Invariants.usable_disk sid fs ->
  Store.readFile (Store.game_path sid) (Store.saveGame sid game fs)
    = Ok (Store.JSON_stringify (Store.fen game)) /\
  (forall value : string, Store.JSON_parse (Store.JSON_stringify value) = Ok value) /\
  Store.existsSync "./games" (Store.saveGame sid game fs) = true.
Proof.
  intros _ _. split; [apply readFile_saveGame|].
  split; [apply JSON_parse_stringify | apply existsSync_games_saveGame].
Qed.

Lemma saveGame_writes_parsable_fen_witness :
  @readFile "./games/undefined.json" (@saveGame position_only None sample_position empty_disk)
    = Ok (JSON_stringify sample_position) /\
  (forall value : string, JSON_parse (JSON_stringify value) = Ok value) /\
  existsSync "./games" (@saveGame position_only None sample_position empty_disk) = true.
Proof.
  apply (@saveGame_writes_parsable_fen position_only None sample_position empty_disk).
  - right. reflexivity.
  - split; [reflexivity|]. cbn. apply not_elem_of_empty.
Defined.

(** X18.  On a disk that only [saveGame] has written, [loadGame] does not fail to
    read or to parse: it returns none, or what the engine makes of a stored
    text.  The empty disk is such a disk, and [saveGame] keeps it so. *)
Theorem loadGame_reads_what_saveGame_wrote `{E : Store.ChessEngine} :
  Invariants.written_by_saveGame Store.empty_disk /\
  (forall (sid : option string) (game : Store.Chess) (fs : Store.FileSystem),
     Invariants.written_by_saveGame fs ->
     Invariants.written_by_saveGame (Store.saveGame sid game fs)) /\
  (forall (sid : option string) (fs : Store.FileSystem),
     Invariants.written_by_saveGame fs ->
     Store.loadGame sid fs = Ok None \/
     exists value : string,
       Store.loadGame sid fs = (g ← Store.new_Chess value; Ok (Some g))).
Proof.
  split; [|split].
  - split; [intros path H; cbn in H; set_solver|].
    intros path data H. cbn in H. now rewrite lookup_empty in H.
  - intros sid game fs [Hdirs Hfiles]. split.
    + intros path. rewrite directories_saveGame.
      destruct (existsSync "./games" fs); [apply Hdirs|].
      rewrite elem_of_union, elem_of_singleton. intros [->|H]; [reflexivity | now apply Hdirs].
    + intros path data. rewrite files_saveGame, lookup_insert.
      case_decide; [intros [= <-]; eauto | apply Hfiles].
  - intros sid fs [Hdirs Hfiles]. unfold loadGame, existsSync, readFile.
    destruct (truthy sid); [|left; now rewrite orb_true_r].
    rewrite orb_false_r.
    rewrite (bool_decide_eq_false_2 (game_path sid ∈ directories fs)).
    2:{ intros H. now apply Hdirs, game_path_not_games in H. }
    cbn [orb]. destruct (files fs !! game_path sid) as [data|] eqn:Hf.
    + right. destruct (Hfiles _ _ Hf) as [value ->]. exists value.
      rewrite bool_decide_eq_true_2 by eauto. cbn [negb mbind result_bind Js.bind].
      now rewrite JSON_parse_stringify.
    + left. rewrite bool_decide_eq_false_2; [reflexivity|].
      intros [x Hx]. discriminate.
Qed.

Lemma loadGame_reads_what_saveGame_wrote_witness :
  written_by_saveGame (@saveGame position_only (Some "a") sample_position empty_disk).
Proof.
  apply (proj1 (proj2 (@loadGame_reads_what_saveGame_wrote position_only))).
  apply (proj1 (@loadGame_reads_what_saveGame_wrote position_only)).
Defined.

End StoreMoreFacts.

(** ** The [chess_move] tool *)

Section ToolFacts.
Import Store Tool.

(** X19.  A failure before the save leaves the disk as it was.  When the
    stored game cannot be read or parsed, or the engine rejects the stored
    position, [chess_move] throws that error; when the engine rejects the
    move, played on the stored game, or on a new game if there is none or
    the command is [new], [chess_move] throws that error; in both cases
    nothing has been written: the move is applied before anything is
    saved. *)
Theorem chess_move_failure_leaves_disk `{R : Tool.ChessRules}
    (move : string) (sid : option string) (fs : Store.FileSystem) (e : Js.Error) :
  (Store.loadGame sid fs = Throw e -> Tool.chess_move move sid fs = (Throw e, fs)) /\
  (forall stored : option Store.Chess,
     Store.loadGame sid fs = Ok stored ->
     Tool.game_move
       (if String.eqb move "new" then Tool.start_game
        else match stored with
             | None => Tool.start_game
             | Some game => game
             end)
       (Tool.trim move) = Throw e ->
     Tool.chess_move move sid fs = (Throw e, fs)).
Proof.
  unfold chess_move. split.
  - now intros ->.
  - intros stored -> Hmove. now rewrite Hmove.
Qed.

Lemma chess_move_failure_leaves_disk_witness :
  @chess_move with_history sample_rules "" (Some Mcp.sample_id) empty_disk
  = (Throw EngineError, empty_disk).
Proof.
  apply (proj2 (@chess_move_failure_leaves_disk with_history sample_rules ""
                  (Some Mcp.sample_id) empty_disk EngineError) None); reflexivity.
Defined.

(** X20.  When [chess_move] returns under a non-empty session id, the position it
    reports is the position it stored: the reply is the board text of some
    game, the session's file holds that game's stringified FEN, and the next
    load returns the game the engine builds from that FEN. *)
Theorem chess_move_reports_what_it_stores `{R : Tool.ChessRules}
    (move sid : string) (fs fs' : Store.FileSystem) (content : list Tool.Content) :
  sid ≠ "" ->
  Tool.chess_move move (Some sid) fs = (Ok content, fs') ->
  exists game : Store.Chess,
    content = [Tool.mkContent "text" (Tool.board_text game)] /\
    Store.files fs' !! Store.game_path (Some sid) = Some (Store.JSON_stringify (Store.fen game)) /\
    Store.loadGame (Some sid) fs' = (g ← Store.new_Chess (Store.fen game); Ok (Some g)).
Proof.
  intros Hs. unfold chess_move.
  destruct (loadGame (Some sid) fs) as [stored|e1]; [|discriminate].
  destruct (game_move _ _) as [game|e2]; [|discriminate].
  intros [= <- <-]. exists game. split; [reflexivity|].
  split; [now rewrite files_saveGame, lookup_insert_eq | now apply loadGame_saveGame].
Qed.

Lemma chess_move_reports_what_it_stores_witness :
  exists game : @Chess with_history,
    fst (@chess_move with_history sample_rules " e5 " (Some Mcp.sample_id) empty_disk)
      = Ok [mkContent "text" (@board_text with_history sample_rules game)] /\
    @fen with_history game = sample_position +:+ " e5".
Proof.
  destruct (@chess_move_reports_what_it_stores with_history sample_rules " e5 " Mcp.sample_id
              empty_disk
              (snd (@chess_move with_history sample_rules " e5 " (Some Mcp.sample_id) empty_disk))
              [mkContent "text"
                 (@board_text with_history sample_rules (sample_position +:+ " e5", ["e5"]))])
    as (game & Hcontent & _ & _).
  - discriminate.
  - reflexivity.
  - injection Hcontent as Htext.
    exists (sample_position +:+ " e5", ["e5"]). split; reflexivity.
Defined.



(** X22.  The command [new] is still played as a move: when the stored game can
    be loaded, the call does not depend on it and sends the text "new" to
    the engine, on a new game.  With an engine that rejects that text the
    call throws on every disk, and the disk, so the stored game, stays as it
    was. *)
Theorem chess_move_new_is_played_as_a_move `{R : Tool.ChessRules}
    (sid : option string) (fs : Store.FileSystem) :
  (forall stored : option Store.Chess,
     Store.loadGame sid fs = Ok stored ->
     Tool.chess_move "new" sid fs =
     match Tool.game_move Tool.start_game "new" with
     | Throw e => (Throw e, fs)
     | Ok game => (Ok [Tool.mkContent "text" (Tool.board_text game)], Store.saveGame sid game fs)
     end) /\
  (forall e : Js.Error,
     Tool.game_move Tool.start_game "new" = Throw e ->
     exists e' : Js.Error, Tool.chess_move "new" sid fs = (Throw e', fs)).
Proof.
  unfold chess_move. change (trim "new") with "new".
  cbn [String.eqb Ascii.eqb Bool.eqb]. split.
  - intros stored ->. reflexivity.
  - intros e Hnew. destruct (loadGame sid fs) as [stored|e1]; [|eauto].
    rewrite Hnew. eauto.
Qed.

Lemma chess_move_new_is_played_as_a_move_witness :
  exists e' : Js.Error,
    @chess_move with_history sample_rules "new" (Some Mcp.sample_id)
      (@saveGame with_history (Some Mcp.sample_id) (sample_position, ["e4"]) empty_disk)
    = (Throw e',
       @saveGame with_history (Some Mcp.sample_id) (sample_position, ["e4"]) empty_disk).
Proof.
  apply (proj2 (@chess_move_new_is_played_as_a_move with_history sample_rules
                  (Some Mcp.sample_id)
                  (@saveGame with_history (Some Mcp.sample_id) (sample_position, ["e4"])
                     empty_disk))
           EngineError).
  reflexivity.
Defined.

Lemma trim_start_split (s : string) :
  exists lead : string, s = lead +:+ trim_start s /\ all_space lead = true.
Proof.
  induction s as [|c s (lead & IH & Hlead)]; [now exists ""|].
  cbn [trim_start]. destruct (is_js_space c) eqn:Hc.
  - exists (String c lead). split; [exact (f_equal (String c) IH)|].
    cbn [all_space]. now rewrite Hc.
  - now exists "".
Qed.

Lemma trim_start_first (s : string) (c : ascii) :
  first_char (trim_start s) = Some c -> is_js_space c = false.
Proof.
  induction s as [|d s IH]; [discriminate|].
  cbn [trim_start]. destruct (is_js_space d) eqn:Hd; [exact IH|].
  now intros [= <-].
Qed.

Lemma trim_end_split (s : string) :
  exists trail : string, s = trim_end s +:+ trail /\ all_space trail = true.
Proof.
  induction s as [|c s (trail & IH & Htrail)]; [now exists ""|].
  cbn [trim_end]. destruct (trim_end s) as [|d r] eqn:E.
  - cbn [String.append] in IH. subst s. destruct (is_js_space c) eqn:Hc.
    + exists (String c trail). split; [reflexivity|]. cbn [all_space]. now rewrite Hc.
    + now exists trail.
  - exists trail. split; [exact (f_equal (String c) IH) | exact Htrail].
Qed.

Lemma trim_end_last (s : string) (c : ascii) :
  last_char (trim_end s) = Some c -> is_js_space c = false.
Proof.
  induction s as [|d s IH]; [discriminate|].
  cbn [trim_end]. destruct (trim_end s) as [|x r] eqn:E.
  - destruct (is_js_space d) eqn:Hd; [discriminate | now intros [= <-]].
  - exact IH.
Qed.

Lemma first_char_prefix (a b : string) (c : ascii) :
  first_char a = Some c -> first_char (a +:+ b) = Some c.
Proof. destruct a; [discriminate | exact id]. Qed.

(** X23.  [trim] removes white space only, and all of it at both ends: the string
    is white space, then its trimmed form, then white space, and the trimmed
    form neither starts nor ends with white space. *)
Theorem trim_removes_surrounding_space (s : string) :
  exists lead trail : string,
    s = lead +:+ Tool.trim s +:+ trail /\
    Tool.all_space lead = true /\
    Tool.all_space trail = true /\
    (forall c : ascii, Tool.first_char (Tool.trim s) = Some c -> Tool.is_js_space c = false) /\
    (forall c : ascii, Tool.last_char (Tool.trim s) = Some c -> Tool.is_js_space c = false).
Proof.
  destruct (trim_start_split s) as (lead & Hs & Hlead).
  destruct (trim_end_split (trim_start s)) as (trail & Ht & Htrail).
  exists lead, trail. unfold trim.
  split; [now rewrite <- Ht|]. split; [exact Hlead|]. split; [exact Htrail|].
  split; [|apply trim_end_last].
  intros c Hc. apply (trim_start_first s). rewrite Ht. now apply first_char_prefix.
Qed.

End ToolFacts.

(** ** Letter case: the validator against the registry *)

Section CaseFacts.
Import Header Uuid Mcp Invariants.

(** X13.  The registry compares ids exactly, the validator up to letter case: a
    request whose id differs from a registered, well-formed id only in
    letter case is not resumed; it is handed to a new transport, registered
    under the id as the request spells it, beside the other. *)
Theorem case_variant_opens_second_session (req : Mcp.Request) (m : Mcp.Middleware)
    (s s' : string) (l : Mcp.loc) :
  Header.header (Some (Mcp.headers req)) "mcp-session-id" = Ok (Some s') ->
  Invariants.uppercase s' = Invariants.uppercase s ->
  Uuid.validUUID (Some s) = true ->
  Mcp.transports m !! s = Some l ->
  Mcp.transports m !! s' = None ->
  exists (l' : Mcp.loc) (m' : Mcp.Middleware),
    Mcp.heap m !! l' = None /\
    Mcp.post req m = Ok (Mcp.HandleRequest l' (Some (Mcp.body req)), m') /\
    Mcp.transports m' !! s' = Some l' /\
    Mcp.transports m' !! s = Some l.
Proof.
  intros Hh Hcase Hv Hl Hun.
  assert (validUUID (Some s') = true) as Hv'.
  { now rewrite <- (validUUID_uppercase s'), Hcase, validUUID_uppercase. }
  pose proof (validUUID_truthy _ Hv') as Ht.
  pose proof (proj1 (truthy_Some s') Ht) as Hs'.
  rewrite (post_with_header _ _ _ Hh), Ht, Hv'. cbn [to_string andb].
  rewrite Hun, (validUUID_not_inherited _ Hv'), orb_true_r,
    (newTransport_explicit s' m Hs').
  cbn [fst snd transports].
  eexists _, _. split; [now apply lookup_ge_None_2|]. split; [reflexivity|].
  cbn [transports]. split; [apply lookup_insert_eq|].
  rewrite lookup_insert_ne; [exact Hl | congruence].
Qed.

Lemma case_variant_opens_second_session_witness :
  exists (l' : loc) (m' : Middleware),
    heap (snd (newTransport (Some sample_id) initial)) !! l' = None /\
    post (request_with (Some "123E4567-E89B-12D3-A456-426614174000") false)
         (snd (newTransport (Some sample_id) initial))
      = Ok (HandleRequest l' (Some (mkBody false "{}")), m') /\
    transports m' !! "123E4567-E89B-12D3-A456-426614174000" = Some l' /\
    transports m' !! sample_id = Some 0.
Proof.
  apply (case_variant_opens_second_session
           (request_with (Some "123E4567-E89B-12D3-A456-426614174000") false)
           (snd (newTransport (Some sample_id) initial))
           sample_id "123E4567-E89B-12D3-A456-426614174000" 0); reflexivity.
Defined.

End CaseFacts.
